(** * PageRank estimators of pagerank.py

    A shallow embedding of [transition_model], [sample_pagerank],
    [iterate_pagerank] and [get_links], and the properties of the
    specification that concern them.

    Python dictionaries are insertion-ordered association lists, Python
    exceptions are an error monad, the global random source is threaded
    explicitly, and the arithmetic is taken over an interface with two
    instances: IEEE binary64 (what the interpreter runs) and exact
    rationals (what the specification reasons with).  The [print] of the
    sum at the end of each estimator is left out. *)

From Stdlib Require Import ZArith QArith Qabs List Bool Lia.
From Stdlib Require Import Strings.String.
From Stdlib Require Import PrimFloat Uint63.
Import ListNotations.

Open Scope Z_scope.

(** ** Exceptions *)

Inductive exn : Set :=
| KeyError
| IndexError
| ZeroDivisionError
| ValueError.

Inductive result (A : Type) : Type :=
| Ok (a : A)
| Raise (e : exn).

Arguments Ok {A} a.
Arguments Raise {A} e.

Definition bind {A B : Type} (c : result A) (k : A -> result B) : result B :=
  match c with
  | Ok a => k a
  | Raise e => Raise e
  end.

Notation "x <- c ;; k" := (bind c (fun x => k))
  (at level 61, c at next level, right associativity).
Notation "' p <- c ;; k" := (bind c (fun x => let p := x in k))
  (at level 61, p pattern, c at next level, right associativity).

(** A [for] loop whose body may raise. *)
Fixpoint foldM {A S : Type} (f : S -> A -> result S) (l : list A) (s : S)
  : result S :=
  match l with
  | [] => Ok s
  | a :: l' => s' <- f s a ;; foldM f l' s'
  end.

(** ** Dictionaries and sets *)

Definition page : Set := string.

(** A [dict]: bindings in insertion order. *)
Definition dict (V : Type) : Type := list (page * V).

Definition keys {V : Type} (d : dict V) : list page := map fst d.
Definition values {V : Type} (d : dict V) : list V := map snd d.

(** [d[k]] *)
Fixpoint getitem {V : Type} (d : dict V) (k : page) : result V :=
  match d with
  | [] => Raise KeyError
  | (k', v) :: d' => if String.eqb k' k then Ok v else getitem d' k
  end.

(** [d[k] = v]: an existing key keeps its position, a new one goes last. *)
Fixpoint setitem {V : Type} (d : dict V) (k : page) (v : V) : dict V :=
  match d with
  | [] => [(k, v)]
  | (k', v') :: d' =>
      if String.eqb k' k then (k', v) :: d' else (k', v') :: setitem d' k v
  end.

(** [{k: f(k) for k in ks}] *)
Definition comprehension {V : Type} (f : page -> V) (ks : list page) : dict V :=
  fold_left (fun d k => setitem d k (f k)) ks [].

(** [len(x)] *)
Definition len {A : Type} (l : list A) : Z := Z.of_nat (List.length l).

(** [k in s] for a set of pages, kept as a duplicate-free list. *)
Definition contains (k : page) (s : list page) : bool :=
  existsb (String.eqb k) s.

(** The corpus: each page with the set of pages it links to. *)
Definition corpus_t : Type := dict (list page).

(** What a [dict] of [set]s guarantees by construction. *)
Definition well_typed (corpus : corpus_t) : Prop :=
  NoDup (keys corpus) /\ Forall (fun e => NoDup (snd e)) corpus.

(** What [crawl] guarantees: links stay inside the corpus. *)
Definition closed (corpus : corpus_t) : Prop :=
  Forall (fun e => incl (snd e) (keys corpus)) corpus.

(** ** Arithmetic *)

Class PyFloat (F : Type) : Type := {
  of_int : Z -> F;
  fadd : F -> F -> F;
  fsub : F -> F -> F;
  fmul : F -> F -> F;
  fdiv : F -> F -> F;
  fabs : F -> F;
  flt : F -> F -> bool;
  fle : F -> F -> bool;
  isfinite : F -> bool
}.

(** binary64; [of_int] is right for integers below 2^63 in magnitude. *)
Definition float_of_int (z : Z) : float :=
  if z <? 0 then PrimFloat.opp (PrimFloat.of_uint63 (Uint63.of_Z (- z)))
  else PrimFloat.of_uint63 (Uint63.of_Z z).

#[global] Instance binary64 : PyFloat float := {|
  of_int := float_of_int;
  fadd := PrimFloat.add;
  fsub := PrimFloat.sub;
  fmul := PrimFloat.mul;
  fdiv := PrimFloat.div;
  fabs := PrimFloat.abs;
  flt := PrimFloat.ltb;
  fle := PrimFloat.leb;
  isfinite := PrimFloat.is_finite
|}.

(** Exact arithmetic. *)
#[global] Instance exact : PyFloat Q := {|
  of_int := inject_Z;
  fadd := Qplus;
  fsub := Qminus;
  fmul := Qmult;
  fdiv := Qdiv;
  fabs := Qabs;
  flt := fun x y => negb (Qle_bool y x);
  fle := Qle_bool;
  isfinite := fun _ => true
|}.

(** ** The random source

    The generator is the stream of its raw outputs. *)

Definition rng : Type := nat -> Z.

Definition next (g : rng) : Z * rng := (g O, fun i => g (S i)).

Section PageRank.

Context {F : Type} `{PyFloat F}.

(** [x / n] for an integer [n] *)
Definition truediv (x : F) (n : Z) : result F :=
  if n =? 0 then Raise ZeroDivisionError else Ok (fdiv x (of_int n)).

(** [sum(xs)]: additions from the left, starting at [0]. *)
Definition sum (xs : list F) : F := fold_left fadd xs (of_int 0).

(** The literal [0.001]. *)
Definition epsilon : F := fdiv (of_int 1) (of_int 1000).

(** [random.random()]: 53 random bits scaled into [0, 1). *)
Definition random (g : rng) : F * rng :=
  let (r, g') := next g in
  (fdiv (of_int (r mod 2 ^ 53)) (of_int (2 ^ 53)), g').

(** [random.choice(seq)] *)
Definition choice (seq : list page) (g : rng) : result (page * rng) :=
  match seq with
  | [] => Raise IndexError
  | a :: _ =>
      let (r, g') := next g in
      Ok (nth (Z.to_nat (r mod len seq)) seq a, g')
  end.

(** [itertools.accumulate(weights)] *)
Fixpoint accumulate_from (acc : F) (ws : list F) : list F :=
  match ws with
  | [] => []
  | w :: ws' => let s := fadd acc w in s :: accumulate_from s ws'
  end.

Definition accumulate (ws : list F) : list F :=
  match ws with
  | [] => []
  | w :: ws' => w :: accumulate_from w ws'
  end.

(** [bisect(cum, x, 0, hi)] on a non-decreasing [cum]: the first index
    below [hi] whose entry exceeds [x], else [hi]. *)
Fixpoint bisect (cum : list F) (x : F) (hi : nat) : nat :=
  match hi, cum with
  | S h, c :: cum' => if flt x c then O else S (bisect cum' x h)
  | _, _ => O
  end.

(** [random.choices(population, weights)[0]] *)
Definition choices (population : list page) (weights : list F) (g : rng)
  : result (page * rng) :=
  let cum := accumulate weights in
  if negb (Nat.eqb (List.length cum) (List.length population))
  then Raise ValueError
  else
    match rev cum with
    | [] => Raise IndexError
    | c :: _ =>
        let total := fadd c (of_int 0) in
        if fle total (of_int 0) then Raise ValueError
        else if negb (isfinite total) then Raise ValueError
        else
          let (u, g') := random g in
          let i := bisect cum (fmul u total) (List.length population - 1) in
          Ok (nth i population EmptyString, g')
    end.

(** ** transition_model *)

Definition transition_model (corpus : corpus_t) (p : page) (damping_factor : F)
  : result (dict F) :=
  links <- getitem corpus p ;;
  if len links =? 0 then
    foldM (fun distribution key =>
             v <- truediv (of_int 1) (len corpus) ;;
             Ok (setitem distribution key v))
          (keys corpus) []
  else
    foldM (fun distribution key =>
             v <- truediv (fsub (of_int 1) damping_factor) (len corpus) ;;
             let distribution := setitem distribution key v in
             links <- getitem corpus p ;;
             if contains key links then
               old <- getitem distribution key ;;
               inc <- truediv damping_factor (len links) ;;
               Ok (setitem distribution key (fadd old inc))
             else Ok distribution)
          (keys corpus) [].

(** ** sample_pagerank *)

(** One turn of the sampling loop. *)
Definition sample_step (corpus : corpus_t) (damping_factor step : F)
  (st : dict F * page * rng) : result (dict F * page * rng) :=
  let '(page_ranks, current_page, g) := st in
  old <- getitem page_ranks current_page ;;
  let page_ranks := setitem page_ranks current_page (fadd old step) in
  transition <- transition_model corpus current_page damping_factor ;;
  '(current_page, g) <- choices (keys transition) (values transition) g ;;
  Ok (page_ranks, current_page, g).

Fixpoint sample_loop (i : nat) (corpus : corpus_t) (damping_factor step : F)
  (st : dict F * page * rng) : result (dict F * page * rng) :=
  match i with
  | O => Ok st
  | S i' =>
      st' <- sample_step corpus damping_factor step st ;;
      sample_loop i' corpus damping_factor step st'
  end.

Definition sample_pagerank (corpus : corpus_t) (damping_factor : F) (n : Z)
  (g : rng) : result (dict F) :=
  let page_ranks := comprehension (fun _ => of_int 0) (keys corpus) in
  '(current_page, g) <- choice (keys corpus) g ;;
  step <- truediv (of_int 1) n ;;
  '(page_ranks, _, _) <-
    sample_loop (Z.to_nat n) corpus damping_factor step
                (page_ranks, current_page, g) ;;
  Ok page_ranks.

(** ** get_links *)

Definition get_links (p : page) (corpus : corpus_t) : result (list page) :=
  foldM (fun links key =>
           s <- getitem corpus key ;;
           Ok (if contains p s then links ++ [key] else links))
        (keys corpus) [].

(** ** iterate_pagerank *)

(** The right-hand side of the update for one page, read from [page_ranks]. *)
Definition new_page_rank (corpus : corpus_t) (damping_factor : F)
  (page_ranks : dict F) (p : page) : result F :=
  base <- truediv (fsub (of_int 1) damping_factor) (len corpus) ;;
  links <- get_links p corpus ;;
  foldM (fun acc link =>
           r <- getitem page_ranks link ;;
           s <- getitem corpus link ;;
           q <- truediv r (len s) ;;
           Ok (fadd acc (fmul damping_factor q)))
        links base.

(** The body of the [for page in page_ranks] loop; the state is
    [page_ranks] and the flag [difference]. *)
Definition visit (corpus : corpus_t) (damping_factor : F)
  (st : dict F * bool) (p : page) : result (dict F * bool) :=
  let (page_ranks, _) := st in
  new <- new_page_rank corpus damping_factor page_ranks p ;;
  old <- getitem page_ranks p ;;
  let difference := flt (fabs (fsub old new)) epsilon in
  Ok (setitem page_ranks p new, difference).

(** One pass of the [while] body. *)
Definition sweep (corpus : corpus_t) (damping_factor : F)
  (st : dict F * bool) : result (dict F * bool) :=
  foldM (visit corpus damping_factor) (keys (fst st)) st.

(** The [while not difference] loop; [None] when [fuel] passes do not
    end it. *)
Fixpoint iterate_loop (fuel : nat) (corpus : corpus_t) (damping_factor : F)
  (st : dict F * bool) : option (result (dict F)) :=
  if snd st then Some (Ok (fst st))
  else
    match fuel with
    | O => None
    | S fuel' =>
        match sweep corpus damping_factor st with
        | Raise e => Some (Raise e)
        | Ok st' => iterate_loop fuel' corpus damping_factor st'
        end
    end.

Definition initial_ranks (corpus : corpus_t) : result (dict F) :=
  foldM (fun page_ranks key =>
           v <- truediv (of_int 1) (len corpus) ;;
           Ok (setitem page_ranks key v))
        (keys corpus) [].

Definition iterate_pagerank (fuel : nat) (corpus : corpus_t)
  (damping_factor : F) : option (result (dict F)) :=
  match initial_ranks corpus with
  | Raise e => Some (Raise e)
  | Ok page_ranks => iterate_loop fuel corpus damping_factor (page_ranks, false)
  end.

End PageRank.


(** ** The double-buffered reference

    The pass the specification asks for: every new rank is computed from
    the ranks as they stood when the pass began, and committed to a
    separate buffer. *)

Section Reference.

Context {F : Type} `{PyFloat F}.

Definition visit_double_buffered (corpus : corpus_t) (damping_factor : F)
  (snapshot : dict F) (st : dict F * bool) (p : page)
  : result (dict F * bool) :=
  let (buffer, _) := st in
  new <- new_page_rank corpus damping_factor snapshot p ;;
  old <- getitem snapshot p ;;
  let difference := flt (fabs (fsub old new)) epsilon in
  Ok (setitem buffer p new, difference).

Definition sweep_double_buffered (corpus : corpus_t) (damping_factor : F)
  (st : dict F * bool) : result (dict F * bool) :=
  foldM (visit_double_buffered corpus damping_factor (fst st))
        (keys (fst st)) st.

Fixpoint iterate_loop_double_buffered (fuel : nat) (corpus : corpus_t)
  (damping_factor : F) (st : dict F * bool) : option (result (dict F)) :=
  if snd st then Some (Ok (fst st))
  else
    match fuel with
    | O => None
    | S fuel' =>
        match sweep_double_buffered corpus damping_factor st with
        | Raise e => Some (Raise e)
        | Ok st' => iterate_loop_double_buffered fuel' corpus damping_factor st'
        end
    end.

Definition iterate_pagerank_double_buffered (fuel : nat) (corpus : corpus_t)
  (damping_factor : F) : option (result (dict F)) :=
  match initial_ranks corpus with
  | Raise e => Some (Raise e)
  | Ok page_ranks =>
      iterate_loop_double_buffered fuel corpus damping_factor
                                   (page_ranks, false)
  end.

(** The pointwise value the specification gives for the transition
    distribution of a page whose outbound set is [links]. *)
Definition transition_probability (corpus : corpus_t) (links : list page)
  (damping_factor : F) (k : page) : F :=
  if len links =? 0 then fdiv (of_int 1) (of_int (len corpus))
  else
    let base := fdiv (fsub (of_int 1) damping_factor) (of_int (len corpus)) in
    if contains k links
    then fadd base (fdiv damping_factor (of_int (len links)))
    else base.

End Reference.

(** ** Sample inputs *)

Open Scope string_scope.

(** Two pages linking to each other, and two more linking to the first. *)
Definition hub : corpus_t :=
  [("1.html", ["2.html"]); ("2.html", ["1.html"]);
   ("3.html", ["1.html"]); ("4.html", ["1.html"])].

(** One page, hence a sink. *)
Definition single : corpus_t := [("1.html", [])].

(** A generator that always yields [0]. *)
Definition zeros : rng := fun _ => 0.

Definition half : float := 0.5%float.
Definition DAMPING : float := float_of_int 85 / float_of_int 100.

(** The tolerance [1e-3] the specification allows on a sum of ranks. *)
Definition tolerance : float := float_of_int 1 / float_of_int 1000.

(** ** The rest of pagerank.py *)

(** Whether the binding of [k] in the corpus links to [p]: the test of
    [get_links]. *)
Definition links_to (corpus : corpus_t) (p k : page) : bool :=
  match getitem corpus k with
  | Ok s => contains p s
  | Raise _ => false
  end.

(** [s.endswith(suffix)] *)
Definition endswith (s suffix : string) : bool :=
  let n := String.length s in
  let m := String.length suffix in
  (m <=? n)%nat && String.eqb (substring (n - m) m s) suffix.

Section Crawl.

(** [re.findall] with the anchor pattern of [crawl], on the text of a file. *)
Variable findall : string -> list page.

(** [set(links) - {filename}] *)
Definition own_links (filename : page) (contents : string) : list page :=
  remove string_dec filename (nodup string_dec (findall contents)).

(** The body of the first loop: a directory entry is a file name with the
    text read from it. *)
Definition extract_step (pages : corpus_t) (entry : page * string) : corpus_t :=
  let '(filename, contents) := entry in
  if negb (endswith filename ".html") then pages
  else setitem pages filename (own_links filename contents).

(** The first loop, over the directory listing. *)
Definition extract_links (listing : list (page * string)) : corpus_t :=
  fold_left extract_step listing [].

(** The second loop: only links to pages of the corpus are kept. *)
Definition keep_internal (pages : corpus_t) : result corpus_t :=
  foldM (fun pages filename =>
           links <- getitem pages filename ;;
           Ok (setitem pages filename
                       (nodup string_dec
                              (filter (fun link => contains link (keys pages))
                                      links))))
        (keys pages) pages.

Definition crawl (listing : list (page * string)) : result corpus_t :=
  keep_internal (extract_links listing).

End Crawl.

(** An entry as the second loop of [crawl] leaves it, [K] being the keys. *)
Definition internal_links (K : list page) (e : page * list page)
  : page * list page :=
  (fst e, nodup string_dec (filter (fun link => contains link K) (snd e))).

(** An entry whose link set has no duplicate and no link to its own page. *)
Definition tidy (e : page * list page) : Prop :=
  NoDup (snd e) /\ ~ In (fst e) (snd e).

(** ** shopping.py *)

(** [del d[k]] *)
Fixpoint delitem {V : Type} (d : dict V) (k : page) : result (dict V) :=
  match d with
  | [] => Raise KeyError
  | (k', v) :: d' =>
      if String.eqb k' k then Ok d'
      else d'' <- delitem d' k ;; Ok ((k', v) :: d'')
  end.

(** [int(b)] for a Boolean *)
Definition int_of_bool (b : bool) : Z := if b then 1 else 0.

(** [xs.count(x)] *)
Definition count (x : Z) (xs : list Z) : Z :=
  Z.of_nat (count_occ Z.eq_dec xs x).

(** What the loop of [evaluate] counts: the pairs that agree on [1], and
    the pairs that agree on anything else. *)
Definition true_positives (labels predictions : list Z) : Z :=
  len (filter (fun pair => (fst pair =? snd pair)%Z && (fst pair =? 1)%Z)
              (combine labels predictions)).

Definition true_negatives (labels predictions : list Z) : Z :=
  len (filter (fun pair => (fst pair =? snd pair)%Z && negb (fst pair =? 1)%Z)
              (combine labels predictions)).

Definition months : dict Z :=
  [("Jan", 1); ("Feb", 2); ("Mar", 3); ("Apr", 4); ("May", 5); ("June", 6);
   ("Jul", 7); ("Aug", 8); ("Sep", 9); ("Oct", 10); ("Nov", 11); ("Dec", 12)].

Definition floats : list string :=
  ["Administrative_Duration"; "Informational_Duration";
   "ProductRelated_Duration"; "BounceRates"; "ExitRates"; "PageValues";
   "SpecialDay"].

Section Shopping.

Context {F : Type} `{PyFloat F}.

(** What a field of a row holds: the text read from the file, or the
    number put in its place. *)
Inductive cell : Type :=
| Str (s : string)
| Int (z : Z)
| Flt (x : F).

(** [int] and [float] on text, and [int] on a float, as the interpreter
    provides them. *)
Variable int_of_string : string -> result Z.
Variable float_of_string : string -> result F.
Variable int_of_float : F -> result Z.

(** [c == s] for a string literal [s] *)
Definition cell_is (c : cell) (s : string) : bool :=
  match c with
  | Str s' => String.eqb s' s
  | _ => false
  end.

(** [months[c]] *)
Definition month_of (c : cell) : result Z :=
  match c with
  | Str s => getitem months s
  | _ => Raise KeyError
  end.

(** [float(c)] *)
Definition to_float (c : cell) : result F :=
  match c with
  | Str s => float_of_string s
  | Int z => Ok (of_int z)
  | Flt x => Ok x
  end.

(** [int(c)] *)
Definition to_int (c : cell) : result Z :=
  match c with
  | Str s => int_of_string s
  | Int z => Ok z
  | Flt x => int_of_float x
  end.

(** The body of [for data in row]. *)
Definition convert (row : dict cell) (data : string) : result (dict cell) :=
  if String.eqb data "Month" then
    c <- getitem row data ;;
    m <- month_of c ;;
    Ok (setitem row data (Int m))
  else if String.eqb data "VisitorType" then
    c <- getitem row data ;;
    Ok (setitem row data (Int (int_of_bool (cell_is c "Returning_Visitor"))))
  else if String.eqb data "Weekend" then
    c <- getitem row data ;;
    Ok (setitem row data (Int (int_of_bool (cell_is c "TRUE"))))
  else if contains data floats then
    c <- getitem row data ;;
    x <- to_float c ;;
    Ok (setitem row data (Flt x))
  else
    c <- getitem row data ;;
    z <- to_int c ;;
    Ok (setitem row data (Int z)).

(** What [convert] puts in place of the field [c] of column [data]. *)
Definition convert_cell (data : string) (c : cell) : result cell :=
  if String.eqb data "Month" then m <- month_of c ;; Ok (Int m)
  else if String.eqb data "VisitorType" then
    Ok (Int (int_of_bool (cell_is c "Returning_Visitor")))
  else if String.eqb data "Weekend" then
    Ok (Int (int_of_bool (cell_is c "TRUE")))
  else if contains data floats then x <- to_float c ;; Ok (Flt x)
  else z <- to_int c ;; Ok (Int z).

(** The body of [for row in reader]: the evidence and the label of one
    row. *)
Definition load_row (row : dict cell) : result (list cell * Z) :=
  revenue <- getitem row "Revenue" ;;
  let label := int_of_bool (cell_is revenue "TRUE") in
  row <- delitem row "Revenue" ;;
  row <- foldM convert (keys row) row ;;
  Ok (values row, label).

(** [load_data], from the rows the CSV reader yields. *)
Definition load_data (rows : list (dict cell))
  : result (list (list cell) * list Z) :=
  foldM (fun acc row =>
           let '(evidence, label) := acc in
           '(e, l) <- load_row row ;;
           Ok ((evidence ++ [e])%list, (label ++ [l])%list))
        rows ([], []).

(** [evaluate] *)
Definition evaluate (labels predictions : list Z) : result (F * F) :=
  let '(sensitivity, specificity) :=
    fold_left (fun acc pair =>
                 let '(sensitivity, specificity) := acc in
                 let '(actual, predicted) := pair in
                 if (actual =? predicted)%Z then
                   if (actual =? 1)%Z
                   then (fadd sensitivity (of_int 1), specificity)
                   else (sensitivity, fadd specificity (of_int 1))
                 else (sensitivity, specificity))
              (combine labels predictions) (of_int 0, of_int 0) in
  a <- truediv sensitivity (count 1 labels) ;;
  b <- truediv specificity (count 0 labels) ;;
  Ok (a, b).

End Shopping.

Arguments convert {F} {H} int_of_string float_of_string int_of_float row data.
Arguments convert_cell {F} {H} int_of_string float_of_string int_of_float data c.
Arguments load_row {F} {H} int_of_string float_of_string int_of_float row.
Arguments load_data {F} {H} int_of_string float_of_string int_of_float rows.

(** ** More sample inputs *)

(** A directory of two pages and a text file; the first page links twice
    to the second, once to itself and once to a missing page. *)
Definition sample_findall (contents : string) : list page :=
  if String.eqb contents "one"
  then ["2.html"; "2.html"; "1.html"; "missing.html"]
  else if String.eqb contents "two" then ["1.html"] else [].

Definition sample_listing : list (page * string) :=
  [("1.html", "one"); ("2.html", "two"); ("notes.txt", "one")].

(** Parsers that know the few numerals of the sample rows. *)
Definition sample_int (s : string) : result Z :=
  if String.eqb s "1" then Ok 1
  else if String.eqb s "2" then Ok 2 else Raise ValueError.

Definition sample_float (s : string) : result float :=
  if String.eqb s "0.5" then Ok 0.5%float else Raise ValueError.

Definition sample_trunc (x : float) : result Z := Raise ValueError.

Definition sample_row (month : string) : dict (@cell float) :=
  [("Administrative", Str "2"); ("BounceRates", Str "0.5");
   ("Month", Str month); ("VisitorType", Str "Returning_Visitor");
   ("Weekend", Str "FALSE"); ("Revenue", Str "TRUE")].

(** ** A large corpus, and the tallies of a walk *)




Section Repeated.

Context {F : Type} `{PyFloat F}.

(** [c] added to [x] four times, sixteen times, and so on. *)
Definition add4 (c x : F) : F := fadd (fadd (fadd (fadd x c) c) c) c.
Definition add16 (c x : F) : F := add4 c (add4 c (add4 c (add4 c x))).
Definition add64 (c x : F) : F := add16 c (add16 c (add16 c (add16 c x))).
Definition add256 (c x : F) : F := add64 c (add64 c (add64 c (add64 c x))).


(** The tally of page [p] after the walk [visits]: [step] added to [0]
    once for every visit to [p]. *)
Definition tally (step : F) (visits : list page) (p : page) : F :=
  fold_left (fun acc q => if String.eqb q p then fadd acc step else acc)
            visits (of_int 0).

End Repeated.

Close Scope string_scope.

(** * Properties *)

(** ** The error monad *)

Lemma bind_Ok {A B : Type} (c : result A) (k : A -> result B) (b : B) :
  bind c k = Ok b -> exists a, c = Ok a /\ k a = Ok b.
Proof. destruct c as [a|e]; simpl; [eauto | discriminate]. Qed.

Ltac inv_bind :=
  repeat match goal with
    | E : bind _ _ = Ok _ |- _ =>
        let a := fresh "a" in
        let Ea := fresh "E" a in
        apply bind_Ok in E; destruct E as (a & Ea & E)
    | E : context [match ?x with pair _ _ => _ end] |- _ => is_var x; destruct x
    | E : Ok _ = Ok _ |- _ => injection E as E
    | E : Raise _ = Ok _ |- _ => discriminate E
    end.

Lemma foldM_app {A S : Type} (f : S -> A -> result S) (l1 l2 : list A) (s : S) :
  foldM f (l1 ++ l2) s = s' <- foldM f l1 s ;; foldM f l2 s'.
Proof.
  revert s; induction l1 as [|a l1 IH]; intros s; simpl; [reflexivity|].
  destruct (f s a); simpl; auto.
Qed.

(** A loop that keeps an invariant ends in it. *)
Lemma foldM_invariant {A S : Type} (I : S -> Prop) (f : S -> A -> result S)
  (l : list A) :
  (forall s a s', In a l -> I s -> f s a = Ok s' -> I s') ->
  forall s s', I s -> foldM f l s = Ok s' -> I s'.
Proof.
  induction l as [|a l IH]; intros Hf s s' Hs E; simpl in E.
  - now injection E as <-.
  - inv_bind. apply (IH (fun s a s' Hin => Hf s a s' (or_intror Hin)) a0); auto.
    apply (Hf s a); simpl; auto.
Qed.

(** ** Dictionaries *)

Section Dict.

Context {V : Type}.
Implicit Types (d : dict V) (k : page) (v : V).

Lemma getitem_setitem_same d k v : getitem (setitem d k v) k = Ok v.
Proof.
  induction d as [|[k' v'] d IH]; simpl.
  - now rewrite String.eqb_refl.
  - destruct (String.eqb k' k) eqn:E; simpl; rewrite E; auto.
Qed.

Lemma getitem_setitem_other d k k' v :
  k <> k' -> getitem (setitem d k v) k' = getitem d k'.
Proof.
  intros Hne; induction d as [|[k0 v0] d IH]; simpl.
  - destruct (String.eqb_spec k k'); congruence.
  - destruct (String.eqb_spec k0 k) as [->|Hk]; simpl.
    + destruct (String.eqb_spec k k'); congruence.
    + now rewrite IH.
Qed.

Lemma setitem_setitem d k v v' : setitem (setitem d k v) k v' = setitem d k v'.
Proof.
  induction d as [|[k0 v0] d IH]; simpl.
  - now rewrite String.eqb_refl.
  - destruct (String.eqb k0 k) eqn:E; simpl; rewrite E; congruence.
Qed.

Lemma getitem_In d k v : getitem d k = Ok v -> In k (keys d).
Proof.
  induction d as [|[k0 v0] d IH]; simpl; [discriminate|].
  destruct (String.eqb_spec k0 k); auto.
Qed.

Lemma In_getitem d k : In k (keys d) -> exists v, getitem d k = Ok v.
Proof.
  induction d as [|[k0 v0] d IH]; simpl; [tauto|].
  destruct (String.eqb_spec k0 k); [eauto|].
  intros [?|?]; [congruence | auto].
Qed.

Lemma getitem_absent d k : ~ In k (keys d) -> getitem d k = Raise KeyError.
Proof.
  induction d as [|[k0 v0] d IH]; simpl; [reflexivity|].
  destruct (String.eqb_spec k0 k); intuition.
Qed.

Lemma keys_setitem_present d k v : In k (keys d) -> keys (setitem d k v) = keys d.
Proof.
  induction d as [|[k0 v0] d IH]; simpl; [tauto|].
  destruct (String.eqb_spec k0 k); simpl; [reflexivity|].
  intros [?|?]; [congruence | f_equal; auto].
Qed.

Lemma keys_setitem_absent d k v :
  ~ In k (keys d) -> keys (setitem d k v) = keys d ++ [k].
Proof.
  induction d as [|[k0 v0] d IH]; simpl; [reflexivity|].
  destruct (String.eqb_spec k0 k); simpl; [intuition|].
  intros ?; f_equal; auto.
Qed.

Lemma In_keys_setitem d k v k' :
  In k' (keys (setitem d k v)) <-> k' = k \/ In k' (keys d).
Proof.
  destruct (in_dec string_dec k (keys d)) as [Hin|Hout].
  - rewrite keys_setitem_present by assumption.
    split; [auto | intros [->|?]; assumption].
  - rewrite keys_setitem_absent, in_app_iff by assumption. simpl.
    split; [intros [?|[?|[]]]; auto | intros [?|?]; auto].
Qed.

Lemma setitem_absent d k v : ~ In k (keys d) -> setitem d k v = d ++ [(k, v)].
Proof.
  induction d as [|[k0 v0] d IH]; simpl; [reflexivity|].
  destruct (String.eqb_spec k0 k); simpl; [intuition|].
  intros ?; f_equal; auto.
Qed.

(** The comprehension, seen from an arbitrary starting dictionary. *)
Lemma getitem_fold_setitem (f : page -> V) (ks : list page) d k :
  getitem (fold_left (fun d k => setitem d k (f k)) ks d) k =
  if in_dec string_dec k ks then Ok (f k) else getitem d k.
Proof.
  revert d; induction ks as [|k0 ks IH]; intros d; [reflexivity|].
  cbn [fold_left]. rewrite IH.
  destruct (in_dec string_dec k (k0 :: ks)) as [Hc|Hc];
    destruct (in_dec string_dec k ks) as [Hin|Hout]; try reflexivity.
  - destruct Hc as [->|?]; [apply getitem_setitem_same | tauto].
  - exfalso; apply Hc; right; assumption.
  - apply getitem_setitem_other. intros ->; apply Hc; left; reflexivity.
Qed.

Lemma In_keys_fold_setitem (f : page -> V) (ks : list page) d k :
  In k (keys (fold_left (fun d k => setitem d k (f k)) ks d)) <->
  In k ks \/ In k (keys d).
Proof.
  revert d; induction ks as [|k0 ks IH]; intros d; simpl; [tauto|].
  rewrite IH, In_keys_setitem. intuition.
Qed.

Lemma fold_setitem_fresh (f : page -> V) (ks : list page) d :
  NoDup ks -> (forall k, In k ks -> ~ In k (keys d)) ->
  fold_left (fun d k => setitem d k (f k)) ks d =
  d ++ map (fun k => (k, f k)) ks.
Proof.
  intros Hnd; revert d; induction Hnd as [|k0 ks Hk0 Hnd IH]; intros d Hd; simpl.
  - now rewrite app_nil_r.
  - rewrite IH.
    + rewrite setitem_absent by (apply Hd; left; reflexivity).
      now rewrite <- app_assoc.
    + intros k Hk. rewrite In_keys_setitem. intros [->|Hin]; [tauto|].
      apply (Hd k); [right|]; assumption.
Qed.

Lemma comprehension_NoDup (f : page -> V) (ks : list page) :
  NoDup ks -> comprehension f ks = map (fun k => (k, f k)) ks.
Proof. intros Hnd. apply (fold_setitem_fresh f ks [] Hnd). auto. Qed.

Lemma getitem_comprehension (f : page -> V) (ks : list page) k :
  In k ks -> getitem (comprehension f ks) k = Ok (f k).
Proof.
  intros Hin. unfold comprehension. rewrite getitem_fold_setitem.
  destruct (in_dec string_dec k ks); tauto.
Qed.

Lemma In_keys_comprehension (f : page -> V) (ks : list page) k :
  In k (keys (comprehension f ks)) <-> In k ks.
Proof. unfold comprehension. rewrite In_keys_fold_setitem. simpl. tauto. Qed.

End Dict.

(** ** transition_model *)

Section Transition.

Context {F : Type} `{PyFloat F}.

Lemma foldM_setitem (f : page -> F) (body : dict F -> page -> result (dict F))
  (ks : list page) :
  (forall dist key, body dist key = Ok (setitem dist key (f key))) ->
  forall d0, foldM body ks d0 = Ok (fold_left (fun d k => setitem d k (f k)) ks d0).
Proof.
  intros Hbody; induction ks as [|k ks IH]; intros d0; simpl; [reflexivity|].
  rewrite Hbody; simpl. apply IH.
Qed.

Lemma len_key_nonzero {V : Type} (d : dict V) (k : page) (v : V) :
  getitem d k = Ok v -> (len d =? 0) = false.
Proof. destruct d; simpl; [discriminate | reflexivity]. Qed.

Lemma truediv_nonzero (x : F) (n : Z) :
  (n =? 0) = false -> truediv x n = Ok (fdiv x (of_int n)).
Proof. unfold truediv; now intros ->. Qed.

(** The distribution is the comprehension of the pointwise formula over
    the pages of the corpus, whenever the current page is one of them. *)
Lemma transition_model_comprehension (corpus : corpus_t) (p : page) (d : F)
  (links : list page) :
  getitem corpus p = Ok links ->
  transition_model corpus p d =
  Ok (comprehension (transition_probability corpus links d) (keys corpus)).
Proof.
  intros Hp. pose proof (len_key_nonzero _ _ _ Hp) as HN.
  unfold transition_model, comprehension. rewrite Hp; simpl.
  destruct (len links =? 0) eqn:HL.
  - apply foldM_setitem. intros dist key.
    rewrite (truediv_nonzero _ _ HN); simpl.
    unfold transition_probability. now rewrite HL.
  - apply foldM_setitem. intros dist key.
    rewrite (truediv_nonzero _ _ HN); simpl.
    unfold transition_probability. rewrite HL.
    destruct (contains key links); [|reflexivity].
    rewrite getitem_setitem_same; simpl.
    rewrite (truediv_nonzero _ _ HL); simpl.
    now rewrite setitem_setitem.
Qed.

Lemma transition_model_KeyError (corpus : corpus_t) (p : page) (d : F) :
  ~ In p (keys corpus) -> transition_model corpus p d = Raise KeyError.
Proof.
  intros Hp. unfold transition_model. now rewrite (getitem_absent _ _ Hp).
Qed.

(** C4: for a page [p] of the corpus with outbound set [links],
    [transition_model] returns a distribution that gives every page [k] of
    the corpus [1/N] when [links] is empty, and otherwise [(1-d)/N], plus
    [d/L] when [k] is among [links]; [N] is the number of pages and [L]
    the number of links.  This holds in either arithmetic. *)
Theorem transition_model_distribution (corpus : corpus_t) (p : page) (d : F)
  (links : list page) :
  getitem corpus p = Ok links ->
  exists distribution,
    transition_model corpus p d = Ok distribution /\
    forall k, In k (keys corpus) ->
      getitem distribution k =
      Ok (if len links =? 0
          then fdiv (of_int 1) (of_int (len corpus))
          else if contains k links
               then fadd (fdiv (fsub (of_int 1) d) (of_int (len corpus)))
                         (fdiv d (of_int (len links)))
               else fdiv (fsub (of_int 1) d) (of_int (len corpus))).
Proof.
  intros Hp. eexists; split.
  - apply transition_model_comprehension, Hp.
  - intros k Hk. rewrite getitem_comprehension by assumption.
    unfold transition_probability.
    destruct (len links =? 0); [reflexivity|].
    destruct (contains k links); reflexivity.
Qed.

(** C8: on a sink the distribution does not depend on the damping
    factor. *)
Theorem transition_model_sink_ignores_damping (corpus : corpus_t) (p : page)
  (d1 d2 : F) :
  getitem corpus p = Ok [] ->
  transition_model corpus p d1 = transition_model corpus p d2.
Proof.
  intros Hp. unfold transition_model. rewrite Hp. reflexivity.
Qed.

Lemma transition_model_keys (corpus : corpus_t) (p : page) (d : F)
  (distribution : dict F) :
  transition_model corpus p d = Ok distribution ->
  forall k, In k (keys distribution) <-> In k (keys corpus).
Proof.
  intros E k. destruct (getitem corpus p) as [links|e] eqn:Hp.
  - rewrite (transition_model_comprehension _ _ _ _ Hp) in E.
    injection E as <-. apply In_keys_comprehension.
  - unfold transition_model in E. rewrite Hp in E. discriminate.
Qed.

End Transition.

(** ** Key sets of the estimators *)

Section Keys.

Context {F : Type} `{PyFloat F}.

Lemma sample_step_keys (corpus : corpus_t) (d step : F)
  (st st' : dict F * page * rng) :
  sample_step corpus d step st = Ok st' ->
  keys (fst (fst st')) = keys (fst (fst st)).
Proof.
  destruct st as [[page_ranks current_page] g]. unfold sample_step.
  intros E. inv_bind. subst st'; simpl.
  apply keys_setitem_present. eapply getitem_In; eassumption.
Qed.

Lemma sample_loop_keys (corpus : corpus_t) (d step : F) (i : nat) :
  forall st st',
    sample_loop i corpus d step st = Ok st' ->
    keys (fst (fst st')) = keys (fst (fst st)).
Proof.
  induction i as [|i IH]; intros st st' E; simpl in E.
  - now injection E as <-.
  - inv_bind. rewrite (IH _ _ E). eapply sample_step_keys; eassumption.
Qed.

Lemma sample_pagerank_keys (corpus : corpus_t) (d : F) (n : Z) (g : rng)
  (page_ranks : dict F) :
  sample_pagerank corpus d n g = Ok page_ranks ->
  forall k, In k (keys page_ranks) <-> In k (keys corpus).
Proof.
  unfold sample_pagerank. intros E k. inv_bind. subst page_ranks.
  match goal with
  | El : sample_loop _ _ _ _ _ = Ok _ |- _ =>
      apply sample_loop_keys in El; simpl in El; rewrite El
  end.
  apply In_keys_comprehension.
Qed.

Lemma visit_keys (corpus : corpus_t) (d : F) (st st' : dict F * bool) (p : page) :
  visit corpus d st p = Ok st' -> keys (fst st') = keys (fst st).
Proof.
  destruct st as [page_ranks difference]. unfold visit. intros E. inv_bind.
  subst st'; simpl. apply keys_setitem_present. eapply getitem_In; eassumption.
Qed.

Lemma foldM_visit_keys (corpus : corpus_t) (d : F) (l : list page)
  (st st' : dict F * bool) :
  foldM (visit corpus d) l st = Ok st' -> keys (fst st') = keys (fst st).
Proof.
  apply (foldM_invariant (fun s => keys (fst s) = keys (fst st))); [|reflexivity].
  intros s a s' _ Hs E. rewrite <- Hs. eapply visit_keys; eassumption.
Qed.

Lemma sweep_keys (corpus : corpus_t) (d : F) (st st' : dict F * bool) :
  sweep corpus d st = Ok st' -> keys (fst st') = keys (fst st).
Proof. apply foldM_visit_keys. Qed.

Lemma iterate_loop_keys (corpus : corpus_t) (d : F) (fuel : nat) :
  forall st page_ranks,
    iterate_loop fuel corpus d st = Some (Ok page_ranks) ->
    keys page_ranks = keys (fst st).
Proof.
  induction fuel as [|fuel IH]; intros st page_ranks E; simpl in E;
    destruct (snd st); try (injection E as <-; reflexivity); try discriminate.
  destruct (sweep corpus d st) as [st'|e] eqn:Es; [|discriminate].
  rewrite (IH _ _ E). eapply sweep_keys; eassumption.
Qed.

Lemma initial_ranks_comprehension (corpus : corpus_t) :
  initial_ranks corpus =
  Ok (comprehension (fun _ => fdiv (of_int 1) (of_int (len corpus)))
                    (keys corpus)).
Proof.
  unfold initial_ranks, comprehension.
  destruct corpus as [|e corpus]; [reflexivity|].
  apply foldM_setitem. intros dist key. now rewrite truediv_nonzero.
Qed.

Lemma iterate_pagerank_keys (corpus : corpus_t) (d : F) (fuel : nat)
  (page_ranks : dict F) :
  iterate_pagerank fuel corpus d = Some (Ok page_ranks) ->
  forall k, In k (keys page_ranks) <-> In k (keys corpus).
Proof.
  unfold iterate_pagerank. rewrite initial_ranks_comprehension. intros E k.
  apply iterate_loop_keys in E; simpl in E. rewrite E.
  apply In_keys_comprehension.
Qed.

(** C9: whatever mapping [transition_model], [sample_pagerank] or
    [iterate_pagerank] returns has exactly the pages of the corpus as its
    keys. *)
Theorem returned_keys_are_corpus_keys (corpus : corpus_t) (d : F) :
  (forall p distribution,
      transition_model corpus p d = Ok distribution ->
      forall k, In k (keys distribution) <-> In k (keys corpus)) /\
  (forall n g page_ranks,
      sample_pagerank corpus d n g = Ok page_ranks ->
      forall k, In k (keys page_ranks) <-> In k (keys corpus)) /\
  (forall fuel page_ranks,
      iterate_pagerank fuel corpus d = Some (Ok page_ranks) ->
      forall k, In k (keys page_ranks) <-> In k (keys corpus)).
Proof.
  split; [|split].
  - intros p. apply transition_model_keys.
  - intros n g. apply sample_pagerank_keys.
  - intros fuel. apply iterate_pagerank_keys.
Qed.

End Keys.

(** ** The pass of iterate_pagerank reads its own updates *)

Section InPlace.

Context {F : Type} `{PyFloat F}.

Lemma visit_other (corpus : corpus_t) (d : F) (st st' : dict F * bool)
  (p q : page) :
  visit corpus d st p = Ok st' -> q <> p ->
  getitem (fst st') q = getitem (fst st) q.
Proof.
  destruct st as [page_ranks difference]. unfold visit. intros E Hq. inv_bind.
  subst st'; simpl. apply getitem_setitem_other. congruence.
Qed.

Lemma visit_self (corpus : corpus_t) (d : F) (st st' : dict F * bool) (p : page) :
  visit corpus d st p = Ok st' ->
  exists new,
    new_page_rank corpus d (fst st) p = Ok new /\ getitem (fst st') p = Ok new.
Proof.
  destruct st as [page_ranks difference]. unfold visit. intros E. inv_bind.
  subst st'; simpl. eexists; split; [eassumption|]. apply getitem_setitem_same.
Qed.

Lemma foldM_visit_other (corpus : corpus_t) (d : F) (l : list page)
  (st st' : dict F * bool) (q : page) :
  foldM (visit corpus d) l st = Ok st' -> ~ In q l ->
  getitem (fst st') q = getitem (fst st) q.
Proof.
  intros E Hq. revert E.
  apply (foldM_invariant (fun s => getitem (fst s) q = getitem (fst st) q));
    [|reflexivity].
  intros s a s' Ha Hs E. rewrite <- Hs. eapply visit_other; [eassumption|].
  intros ->. contradiction.
Qed.

Lemma NoDup_app_disjoint {A : Type} (l1 l2 : list A) (x : A) :
  NoDup (l1 ++ l2) -> In x l1 -> ~ In x l2.
Proof.
  induction l1 as [|a l1 IH]; simpl; [tauto|].
  intros Hnd [->|Hin] Hx.
  - inversion Hnd as [|? ? Hout _]; subst. apply Hout, in_or_app; auto.
  - inversion Hnd; subst. now apply IH.
Qed.

(** The flag a pass leaves behind is the verdict on its last page only. *)
Lemma sweep_flag_last_page (corpus : corpus_t) (d : F) (page_ranks : dict F)
  (difference : bool) (before : list page) (p : page) (st' : dict F * bool) :
  keys page_ranks = before ++ [p] ->
  sweep corpus d (page_ranks, difference) = Ok st' ->
  exists mid old new,
    foldM (visit corpus d) before (page_ranks, difference) = Ok mid /\
    getitem (fst mid) p = Ok old /\
    new_page_rank corpus d (fst mid) p = Ok new /\
    snd st' = flt (fabs (fsub old new)) epsilon.
Proof.
  intros Hkeys. unfold sweep; simpl fst. rewrite Hkeys, foldM_app.
  intros E. apply bind_Ok in E as ([ranks flag] & Epre & E).
  simpl in E. apply bind_Ok in E as (st1 & Ep & Epost).
  injection Epost as <-. unfold visit in Ep. inv_bind. subst st1.
  eexists (ranks, flag), _, _. repeat split; eassumption || reflexivity.
Qed.

(** C2, as the code has it: a pass updates [page_ranks] in place.  When
    the pass reaches page [p], the mapping [seen] from which the new rank
    of [p] is computed already holds this pass's ranks for the pages
    before [p], and the previous ranks for [p] and the pages after it. *)
Theorem sweep_reads_in_place (corpus : corpus_t) (d : F) (page_ranks : dict F)
  (difference : bool) (before after : list page) (p : page)
  (st' : dict F * bool) :
  NoDup (keys page_ranks) ->
  keys page_ranks = before ++ p :: after ->
  sweep corpus d (page_ranks, difference) = Ok st' ->
  exists seen new,
    (forall q, In q before -> getitem seen q = getitem (fst st') q) /\
    (forall q, ~ In q before -> getitem seen q = getitem page_ranks q) /\
    new_page_rank corpus d seen p = Ok new /\
    getitem (fst st') p = Ok new.
Proof.
  intros Hnd Hkeys. unfold sweep; simpl fst. rewrite Hkeys in *.
  rewrite foldM_app. intros E. apply bind_Ok in E as (mid & Epre & E).
  simpl in E. apply bind_Ok in E as (st1 & Ep & Epost).
  assert (Hp : ~ In p after).
  { apply NoDup_remove_2 in Hnd. intros Hin; apply Hnd, in_or_app; auto. }
  destruct (visit_self _ _ _ _ _ Ep) as (new & Enew & Eget).
  exists (fst mid), new. repeat split.
  - intros q Hq.
    assert (Hq' : ~ In q (p :: after))
      by (eapply NoDup_app_disjoint; eassumption).
    rewrite (foldM_visit_other _ _ _ _ _ q Epost) by (simpl in Hq'; tauto).
    symmetry. eapply visit_other; [eassumption|]. simpl in Hq'; intuition.
  - intros q Hq. now apply (foldM_visit_other _ _ _ _ _ q Epre).
  - assumption.
  - now rewrite (foldM_visit_other _ _ _ _ _ p Epost).
Qed.

End InPlace.

(** ** sample_pagerank on invalid input *)

Section InvalidInput.

Context {F : Type} `{PyFloat F}.

(** What [sample_pagerank] does for [n < 1], case by case. *)
Theorem sample_pagerank_below_one (corpus : corpus_t) (d : F) (n : Z) (g : rng) :
  n < 1 ->
  sample_pagerank corpus d n g =
  match corpus with
  | [] => Raise IndexError
  | _ :: _ =>
      if n =? 0 then Raise ZeroDivisionError
      else Ok (comprehension (fun _ => of_int 0) (keys corpus))
  end.
Proof.
  intros Hn. unfold sample_pagerank. destruct corpus as [|[k s] corpus]; simpl.
  - reflexivity.
  - unfold truediv. destruct (n =? 0) eqn:E; simpl; [reflexivity|].
    apply Z.eqb_neq in E. replace (Z.to_nat n) with O by lia. reflexivity.
Qed.

End InvalidInput.

(** ** Exact arithmetic *)

Section Exact.

Open Scope Q_scope.

Implicit Types (xs : list Q) (ks links : list page).

Lemma fold_left_Qplus xs (a : Q) :
  fold_left Qplus xs a == a + fold_left Qplus xs 0.
Proof.
  revert a; induction xs as [|x xs IH]; intros a; simpl.
  - now rewrite Qplus_0_r.
  - rewrite (IH (a + x)), (IH (0 + x)). ring.
Qed.

Lemma sum_cons (x : Q) xs : sum (x :: xs) == x + sum xs.
Proof.
  unfold sum; simpl. change (inject_Z 0) with 0.
  rewrite fold_left_Qplus. ring.
Qed.

Lemma sum_map_const (c : Q) ks :
  sum (map (fun _ => c) ks) == inject_Z (len ks) * c.
Proof.
  induction ks as [|k ks IH].
  - unfold sum, len; simpl. change (inject_Z 0) with 0. ring.
  - cbn [map]. rewrite sum_cons, IH. unfold len. cbn [List.length].
    rewrite Nat2Z.inj_succ, <- Z.add_1_r, inject_Z_plus.
    change (inject_Z 1) with 1. ring.
Qed.

Lemma sum_map_indicator (b : page -> bool) (base inc : Q) ks :
  sum (map (fun k => if b k then base + inc else base) ks) ==
  inject_Z (len ks) * base + inject_Z (len (filter b ks)) * inc.
Proof.
  induction ks as [|k ks IH].
  - unfold sum, len; simpl. change (inject_Z 0) with 0. ring.
  - cbn [map filter]. rewrite sum_cons, IH. unfold len at 3. cbn [List.length].
    rewrite Nat2Z.inj_succ, <- Z.add_1_r, inject_Z_plus.
    change (inject_Z 1) with 1.
    destruct (b k).
    + unfold len at 3. cbn [List.length].
      rewrite Nat2Z.inj_succ, <- Z.add_1_r, inject_Z_plus.
      change (inject_Z 1) with 1. unfold len. ring.
    + unfold len. ring.
Qed.

Lemma contains_In (k : page) links : contains k links = true <-> In k links.
Proof.
  unfold contains. rewrite existsb_exists. split.
  - intros (x & Hx & E). apply String.eqb_eq in E. now subst.
  - intros Hin. exists k. split; [assumption | apply String.eqb_refl].
Qed.

(** Within a closed corpus every link is counted once. *)
Lemma linked_count ks links :
  NoDup ks -> NoDup links -> incl links ks ->
  List.length (filter (fun k => contains k links) ks) = List.length links.
Proof.
  intros Hks Hlinks Hincl. apply Nat.le_antisymm.
  - apply NoDup_incl_length; [now apply NoDup_filter|].
    intros k Hk. apply filter_In in Hk. now apply contains_In.
  - apply NoDup_incl_length; [assumption|].
    intros k Hk. apply filter_In. split; [auto | now apply contains_In].
Qed.

Lemma getitem_In_entry {V : Type} (d : dict V) (k : page) (v : V) :
  getitem d k = Ok v -> In (k, v) d.
Proof.
  induction d as [|[k0 v0] d IH]; simpl; [discriminate|].
  destruct (String.eqb_spec k0 k) as [->|Hne].
  - intros E; injection E as ->; auto.
  - auto.
Qed.

Lemma len_positive {A : Type} (l : list A) : l <> [] -> 0 < inject_Z (len l).
Proof.
  intros Hl. destruct l; [contradiction|].
  unfold len, Qlt; simpl. lia.
Qed.

Lemma len_keys {V : Type} (d : dict V) : len (keys d) = len d.
Proof. unfold len, keys. now rewrite length_map. Qed.

Lemma values_map (f : page -> Q) ks :
  values (map (fun k => (k, f k)) ks) = map f ks.
Proof. unfold values. rewrite map_map. reflexivity. Qed.

(** In exact arithmetic the distribution sums to one. *)
Lemma transition_model_sum (corpus : corpus_t) (p : page) (d : Q) links :
  well_typed corpus -> closed corpus ->
  getitem corpus p = Ok links ->
  exists distribution,
    transition_model corpus p d = Ok distribution /\
    keys distribution = keys corpus /\
    sum (values distribution) == 1.
Proof.
  intros [Hnd Hsets] Hclosed Hp.
  pose proof (getitem_In_entry _ _ _ Hp) as Hentry.
  assert (HN : 0 < inject_Z (len corpus)).
  { apply len_positive. intros ->. contradiction. }
  unfold closed in Hclosed. rewrite Forall_forall in Hsets, Hclosed.
  specialize (Hsets _ Hentry). specialize (Hclosed _ Hentry). simpl in *.
  eexists; split; [apply transition_model_comprehension, Hp|].
  rewrite comprehension_NoDup by assumption. split.
  { unfold keys. rewrite map_map. simpl. now rewrite map_id. }
  rewrite values_map. unfold transition_probability.
  destruct (Z.eqb_spec (len links) 0) as [HL|HL].
  - rewrite sum_map_const, len_keys. cbn. field.
    intros E. rewrite E in HN. discriminate.
  - cbn [fadd fsub fdiv of_int exact].
    rewrite (sum_map_indicator (fun k => contains k links)).
    replace (len (filter (fun k => contains k links) (keys corpus)))
      with (len links) by (unfold len; now rewrite linked_count).
    rewrite len_keys. change (inject_Z 1) with 1. field. split.
    + intros E. apply HL. unfold Qeq in E; simpl in E. lia.
    + intros E. rewrite E in HN. discriminate.
Qed.

(** In exact arithmetic the values of the distribution are within 1e-9 of
    one, being exactly one, whatever the damping factor. *)
Theorem transition_model_sums_to_one (corpus : corpus_t) (p : page) (d : Q)
  (links : list page) :
  well_typed corpus -> closed corpus ->
  getitem corpus p = Ok links ->
  exists distribution,
    transition_model corpus p d = Ok distribution /\
    Qabs (sum (values distribution) - 1) <= 1 # 1000000000.
Proof.
  intros Hwt Hclosed Hp.
  destruct (transition_model_sum corpus p d links Hwt Hclosed Hp)
    as (distribution & E & _ & Hsum).
  exists distribution. split; [assumption|].
  rewrite Hsum. discriminate.
Qed.

Lemma Qdiv_positive (x : Q) (n : Z) : 0 < x -> (0 < n)%Z -> 0 < x / inject_Z n.
Proof.
  intros Hx Hn. apply Qlt_shift_div_l.
  - unfold Qlt; simpl. lia.
  - now rewrite Qmult_0_l.
Qed.

(** C10: with a damping factor strictly between 0 and 1, every page of
    the corpus gets a strictly positive probability. *)
Theorem transition_model_positive (corpus : corpus_t) (p : page) (d : Q)
  (links : list page) (k : page) :
  getitem corpus p = Ok links ->
  0 < d -> d < 1 ->
  In k (keys corpus) ->
  exists distribution v,
    transition_model corpus p d = Ok distribution /\
    getitem distribution k = Ok v /\
    0 < v.
Proof.
  intros Hp Hd0 Hd1 Hk.
  assert (HN : (0 < len corpus)%Z).
  { destruct corpus; [discriminate|]. unfold len; simpl. lia. }
  exists (comprehension (transition_probability corpus links d) (keys corpus)).
  eexists. split; [apply transition_model_comprehension, Hp|].
  split; [now apply getitem_comprehension|].
  unfold transition_probability. cbn [fadd fsub fdiv of_int exact].
  change (inject_Z 1) with 1.
  assert (Hbase : 0 < (1 - d) / inject_Z (len corpus)).
  { apply Qdiv_positive; [|assumption]. now apply (proj1 (Qlt_minus_iff d 1)). }
  destruct (Z.eqb_spec (len links) 0) as [HL|HL].
  - apply Qdiv_positive; [reflexivity | assumption].
  - destruct (contains k links); [|assumption].
    assert (Hinc : 0 < d / inject_Z (len links)).
    { apply Qdiv_positive; [assumption|]. unfold len in *. lia. }
    rewrite <- (Qplus_0_r 0). now apply Qplus_lt_le_compat; [|apply Qlt_le_weak].
Qed.

Lemma values_cons {V : Type} (k : page) (v : V) (d : dict V) :
  values ((k, v) :: d) = v :: values d.
Proof. reflexivity. Qed.

Lemma sum_values_setitem (page_ranks : dict Q) (k : page) (old step : Q) :
  getitem page_ranks k = Ok old ->
  sum (values (setitem page_ranks k (old + step))) ==
  sum (values page_ranks) + step.
Proof.
  induction page_ranks as [|[k0 v0] page_ranks IH]; cbn [getitem setitem];
    [discriminate|].
  destruct (String.eqb_spec k0 k) as [->|Hne]; intros E.
  - injection E as ->. rewrite !values_cons, !sum_cons. ring.
  - rewrite !values_cons, !sum_cons, (IH E). ring.
Qed.

Lemma length_accumulate_from xs (acc : Q) :
  List.length (accumulate_from acc xs) = List.length xs.
Proof. revert acc; induction xs; intros acc; simpl; auto. Qed.

Lemma length_accumulate xs : List.length (accumulate xs) = List.length xs.
Proof. destruct xs; simpl; [|rewrite length_accumulate_from]; reflexivity. Qed.

(** The last cumulative weight is the total. *)
Lemma accumulate_from_last xs :
  forall acc : Q, xs <> [] ->
  exists c rest, rev (accumulate_from acc xs) = c :: rest /\ c == acc + sum xs.
Proof.
  induction xs as [|x xs IH]; intros acc Hne; [contradiction|].
  cbn [accumulate_from rev]. destruct xs as [|y xs].
  - exists (acc + x), []. split; [reflexivity|].
    rewrite sum_cons. unfold sum; simpl. change (inject_Z 0) with 0. ring.
  - destruct (IH (fadd acc x)) as (c & rest & E & Hc); [discriminate|].
    rewrite E. exists c, (rest ++ [fadd acc x]). split; [reflexivity|].
    rewrite Hc, (sum_cons x). cbn [fadd exact]. ring.
Qed.

Lemma accumulate_last xs :
  xs <> [] -> exists c rest, rev (accumulate xs) = c :: rest /\ c == sum xs.
Proof.
  destruct xs as [|x xs]; intros Hne; [contradiction|].
  cbn [accumulate rev]. destruct xs as [|y xs].
  - exists x, []. split; [reflexivity|].
    rewrite sum_cons. unfold sum; simpl. change (inject_Z 0) with 0. ring.
  - destruct (accumulate_from_last (y :: xs) x) as (c & rest & E & Hc);
      [discriminate|].
    rewrite E. exists c, (rest ++ [x]). split; [reflexivity|].
    now rewrite Hc, (sum_cons x).
Qed.

Lemma bisect_le (cum : list Q) (x : Q) (hi : nat) : (bisect cum x hi <= hi)%nat.
Proof.
  revert cum; induction hi as [|hi IH]; intros [|c cum]; simpl; try lia.
  destruct (negb (Qle_bool c x)); [lia|]. specialize (IH cum). lia.
Qed.

(** Weights that total one always yield a member of the population. *)
Lemma choices_member (population : list page) (weights : list Q) (g : rng) :
  population <> [] ->
  List.length weights = List.length population ->
  sum weights == 1 ->
  exists q g', choices population weights g = Ok (q, g') /\ In q population.
Proof.
  intros Hne Hlen Hsum. unfold choices.
  rewrite length_accumulate, Hlen, Nat.eqb_refl. cbn [negb].
  destruct (accumulate_last weights) as (c & rest & E & Hc).
  { intros ->. destruct population; [contradiction | discriminate]. }
  rewrite E. cbn [fle fadd of_int isfinite exact negb].
  destruct (Qle_bool (c + inject_Z 0) (inject_Z 0)) eqn:Hle.
  { apply Qle_bool_iff in Hle. rewrite Hc, Hsum in Hle.
    unfold Qle in Hle; simpl in Hle. lia. }
  destruct (random g) as [u g'] eqn:Eu.
  eexists _, g'. split; [reflexivity|].
  apply nth_In.
  pose proof (bisect_le (accumulate weights) (fmul u (c + inject_Z 0))
                        (List.length population - 1)).
  destruct population; [contradiction | simpl in *; lia].
Qed.

Lemma sample_step_exact (corpus : corpus_t) (d step : Q) (page_ranks : dict Q)
  (current_page : page) (g : rng) :
  well_typed corpus -> closed corpus ->
  In current_page (keys corpus) ->
  (forall k, In k (keys corpus) -> In k (keys page_ranks)) ->
  exists page_ranks' next_page g',
    sample_step corpus d step (page_ranks, current_page, g) =
    Ok (page_ranks', next_page, g') /\
    In next_page (keys corpus) /\
    keys page_ranks' = keys page_ranks /\
    sum (values page_ranks') == sum (values page_ranks) + step.
Proof.
  intros Hwt Hclosed Hcur Hkeys.
  destruct (In_getitem _ _ (Hkeys _ Hcur)) as (old & Eold).
  destruct (In_getitem _ _ Hcur) as (links & Elinks).
  destruct (transition_model_sum corpus current_page d links Hwt Hclosed Elinks)
    as (transition & Et & Hk & Hsum).
  destruct (choices_member (keys transition) (values transition) g)
    as (next_page & g' & Ec & Hnext).
  { rewrite Hk. intros E. rewrite E in Hcur. contradiction. }
  { unfold keys, values. now rewrite !length_map. }
  { assumption. }
  exists (setitem page_ranks current_page (old + step)), next_page, g'.
  unfold sample_step. rewrite Eold; cbn [bind]. rewrite Et; cbn [bind].
  rewrite Ec; cbn [bind]. split; [reflexivity|].
  split; [now rewrite <- Hk|]. split.
  - apply keys_setitem_present. now apply Hkeys.
  - now apply sum_values_setitem.
Qed.

Lemma sample_loop_exact (corpus : corpus_t) (d step : Q) (i : nat) :
  well_typed corpus -> closed corpus ->
  forall (page_ranks : dict Q) (current_page : page) (g : rng),
    In current_page (keys corpus) ->
    (forall k, In k (keys corpus) -> In k (keys page_ranks)) ->
    exists page_ranks' last_page g',
      sample_loop i corpus d step (page_ranks, current_page, g) =
      Ok (page_ranks', last_page, g') /\
      sum (values page_ranks') ==
      sum (values page_ranks) + inject_Z (Z.of_nat i) * step.
Proof.
  intros Hwt Hclosed. induction i as [|i IH]; intros page_ranks current_page g Hcur Hkeys.
  - exists page_ranks, current_page, g. split; [reflexivity|].
    simpl. change (inject_Z 0) with 0. ring.
  - destruct (sample_step_exact corpus d step page_ranks current_page g
                Hwt Hclosed Hcur Hkeys)
      as (ranks1 & page1 & g1 & E1 & Hpage1 & Hkeys1 & Hsum1).
    destruct (IH ranks1 page1 g1 Hpage1) as (ranks2 & page2 & g2 & E2 & Hsum2).
    { intros k Hk. rewrite Hkeys1. now apply Hkeys. }
    exists ranks2, page2, g2. cbn [sample_loop]. rewrite E1; cbn [bind].
    split; [assumption|].
    rewrite Hsum2, Hsum1, Nat2Z.inj_succ, <- Z.add_1_r, inject_Z_plus.
    change (inject_Z 1) with 1. ring.
Qed.

(** In exact arithmetic the tallies are [n] increments of [1/n] and sum
    to exactly one for every [n >= 1]; the call returns whatever the random
    source yields. *)
Theorem sample_pagerank_sum_exact (corpus : corpus_t) (d : Q) (n : Z) (g : rng) :
  well_typed corpus -> closed corpus ->
  corpus <> [] ->
  (1 <= n)%Z ->
  exists page_ranks,
    sample_pagerank corpus d n g = Ok page_ranks /\
    sum (values page_ranks) == 1.
Proof.
  intros Hwt Hclosed Hne Hn. unfold sample_pagerank.
  destruct corpus as [|[k0 s0] corpus'] eqn:Ecorpus; [contradiction|].
  rewrite <- Ecorpus in *.
  assert (Hchoice : exists start g', choice (keys corpus) g = Ok (start, g') /\
                                     In start (keys corpus)).
  { rewrite Ecorpus. cbn [keys map fst choice]. fold (keys corpus').
    destruct (next g) as [r g'] eqn:Er. eexists _, g'. split; [reflexivity|].
    apply nth_In.
    assert (0 <= r mod len (k0 :: keys corpus') < len (k0 :: keys corpus'))%Z
      by (apply Z.mod_pos_bound; unfold len; simpl; lia).
    unfold len in *. lia. }
  destruct Hchoice as (start & g' & Echoice & Hstart).
  rewrite Echoice; cbn [bind].
  rewrite truediv_nonzero by (apply Z.eqb_neq; lia). cbn [bind].
  destruct (sample_loop_exact corpus d (fdiv (of_int 1) (of_int n)) (Z.to_nat n)
              Hwt Hclosed
              (comprehension (fun _ => of_int 0) (keys corpus)) start g' Hstart)
    as (page_ranks & last_page & g'' & Eloop & Hsum).
  { intros k Hk. now apply In_keys_comprehension. }
  rewrite Eloop; cbn [bind]. exists page_ranks. split; [reflexivity|].
  rewrite Hsum, comprehension_NoDup by apply Hwt.
  rewrite values_map, sum_map_const, Z2Nat.id by lia.
  cbn [fdiv of_int exact]. change (inject_Z 0) with 0. change (inject_Z 1) with 1.
  field. intros E. unfold Qeq in E; simpl in E. lia.
Qed.

End Exact.


(** ** Unfolding the loop *)

Section Loop.

Context {F : Type} `{PyFloat F}.

Lemma iterate_loop_done (fuel : nat) (corpus : corpus_t) (d : F)
  (st : dict F * bool) :
  snd st = true -> iterate_loop fuel corpus d st = Some (Ok (fst st)).
Proof. intros E. destruct fuel; simpl; now rewrite E. Qed.

Lemma iterate_loop_step (fuel : nat) (corpus : corpus_t) (d : F)
  (st st' : dict F * bool) :
  snd st = false -> sweep corpus d st = Ok st' ->
  iterate_loop (S fuel) corpus d st = iterate_loop fuel corpus d st'.
Proof. intros E Es. simpl. now rewrite E, Es. Qed.

End Loop.

(** ** Runs on the sample inputs *)

Section Runs.

Open Scope string_scope.

Lemma hub_well_typed : well_typed hub.
Proof.
  split.
  - repeat (constructor; [simpl; intuition discriminate|]). constructor.
  - repeat (constructor; [simpl; repeat constructor; simpl; tauto|]). constructor.
Qed.

Lemma hub_closed : closed hub.
Proof.
  repeat (constructor; [intros k; simpl; intuition|]). constructor.
Qed.

(** The constants of the program, as binary64 values. *)
Lemma binary64_constants :
  DAMPING = 0x1.b333333333333p-1%float /\
  @epsilon float _ = 0x1.0624dd2f1a9fcp-10%float.
Proof. split; vm_compute; reflexivity. Qed.

(** C1: on [hub] with damping factor [0.5], [iterate_pagerank] returns
    after its second pass, because the last page visited did not move, and
    the flag [difference] holds the verdict of that page alone.  In that
    pass the first page moved by 0.0625, which is not below 0.001, and one
    more pass would move it again by 0.015625. *)
Theorem iterate_pagerank_returns_before_convergence :
  let ranks0 := [("1.html", 0.25); ("2.html", 0.25);
                 ("3.html", 0.25); ("4.html", 0.25)]%float in
  let ranks1 := [("1.html", 0.5); ("2.html", 0.375);
                 ("3.html", 0.125); ("4.html", 0.125)]%float in
  let ranks2 := [("1.html", 0.4375); ("2.html", 0.34375);
                 ("3.html", 0.125); ("4.html", 0.125)]%float in
  initial_ranks hub = Ok ranks0 /\
  sweep hub half (ranks0, false) = Ok (ranks1, false) /\
  sweep hub half (ranks1, false) = Ok (ranks2, true) /\
  (forall fuel, (2 <= fuel)%nat ->
                iterate_pagerank fuel hub half = Some (Ok ranks2)) /\
  flt (fabs (fsub 0.5 0.4375)%float) epsilon = false /\
  new_page_rank hub half ranks2 "1.html" = Ok 0.421875%float.
Proof.
  repeat split; try (vm_compute; reflexivity).
  intros [|[|fuel]] Hfuel; try lia. unfold iterate_pagerank.
  replace (initial_ranks hub)
    with (Ok [("1.html", 0.25); ("2.html", 0.25);
              ("3.html", 0.25); ("4.html", 0.25)]%float)
    by (vm_compute; reflexivity).
  rewrite (iterate_loop_step _ _ _ _
             ([("1.html", 0.5); ("2.html", 0.375);
               ("3.html", 0.125); ("4.html", 0.125)]%float, false))
    by (vm_compute; reflexivity).
  rewrite (iterate_loop_step _ _ _ _
             ([("1.html", 0.4375); ("2.html", 0.34375);
               ("3.html", 0.125); ("4.html", 0.125)]%float, true))
    by (vm_compute; reflexivity).
  now apply iterate_loop_done.
Qed.

(** The same run in exact arithmetic: the early return is not an effect of
    rounding. *)
Lemma iterate_pagerank_returns_before_convergence_exact :
  exists ranks1 ranks2 old new,
    iterate_pagerank 1 hub (1 # 2)%Q = None /\
    iterate_pagerank 2 hub (1 # 2)%Q = Some (Ok ranks2) /\
    (ranks0 <- initial_ranks hub ;; sweep hub (1 # 2)%Q (ranks0, false)) =
    Ok (ranks1, false) /\
    sweep hub (1 # 2)%Q (ranks1, false) = Ok (ranks2, true) /\
    getitem ranks1 "1.html" = Ok old /\
    getitem ranks2 "1.html" = Ok new /\
    (Qabs (old - new) == 1 # 16)%Q.
Proof.
  do 4 eexists. repeat split; try (vm_compute; reflexivity).
Qed.

(** C2, as stated, fails: on [hub] the pass of the program gives the second
    page 0.375, computed from the first page's new rank 0.5, where the
    double-buffered pass gives 0.25; the two loops return different
    mappings. *)
Lemma sweep_differs_from_double_buffered :
  let ranks0 := [("1.html", 0.25); ("2.html", 0.25);
                 ("3.html", 0.25); ("4.html", 0.25)]%float in
  sweep hub half (ranks0, false) =
  Ok ([("1.html", 0.5); ("2.html", 0.375);
       ("3.html", 0.125); ("4.html", 0.125)]%float, false) /\
  sweep_double_buffered hub half (ranks0, false) =
  Ok ([("1.html", 0.5); ("2.html", 0.25);
       ("3.html", 0.125); ("4.html", 0.125)]%float, false) /\
  sweep hub half (ranks0, false) <>
  sweep_double_buffered hub half (ranks0, false) /\
  iterate_pagerank 2 hub half =
  Some (Ok [("1.html", 0.4375); ("2.html", 0.34375);
            ("3.html", 0.125); ("4.html", 0.125)]%float) /\
  iterate_pagerank_double_buffered 2 hub half =
  Some (Ok [("1.html", 0.375); ("2.html", 0.375);
            ("3.html", 0.125); ("4.html", 0.125)]%float).
Proof.
  repeat split; try (vm_compute; reflexivity).
  intros E.
  apply (f_equal (fun r => match r with
                           | Ok (ranks, _) =>
                               match getitem ranks "2.html" with
                               | Ok v => PrimFloat.eqb v 0.25%float
                               | Raise _ => false
                               end
                           | Raise _ => false
                           end)) in E.
  vm_compute in E. discriminate E.
Qed.

(** C3: the mapping returned on [hub] with damping factor [0.5] sums to
    1.03125, and the one returned on the one-page corpus with damping factor
    [0.85] sums to [1 - 0.85]; neither is within 0.001 of one. *)
Theorem iterate_pagerank_sum_is_off :
  (exists page_ranks,
      iterate_pagerank 2 hub half = Some (Ok page_ranks) /\
      sum (values page_ranks) = 1.03125%float /\
      fle (fabs (fsub (sum (values page_ranks)) 1%float)) tolerance = false) /\
  (exists page_ranks,
      iterate_pagerank 2 single DAMPING = Some (Ok page_ranks) /\
      sum (values page_ranks) = fsub 1%float DAMPING /\
      fle (fabs (fsub (sum (values page_ranks)) 1%float)) tolerance = false).
Proof.
  split; eexists; repeat split; vm_compute; reflexivity.
Qed.

(** On [hub] the binary64 distribution sums to one within 1e-9. *)
Lemma transition_model_binary64_sum_hub :
  exists distribution,
    transition_model hub "1.html" DAMPING = Ok distribution /\
    fle (fabs (fsub (sum (values distribution)) 1%float))
        (float_of_int 1 / float_of_int 1000000000)%float = true.
Proof. eexists. split; vm_compute; reflexivity. Qed.

(** C6, as stated, fails: with [n = -1] nothing is raised and a mapping
    of zeros comes back. *)
Lemma sample_pagerank_negative_count_returns :
  -1 < 1 /\
  sample_pagerank single DAMPING (-1) zeros = Ok [("1.html", 0%float)].
Proof. split; [lia | vm_compute; reflexivity]. Qed.

(** C7, as stated, fails in binary64: ten increments of [1/10] on the
    one-page corpus leave a tally just below one. *)
Lemma sample_pagerank_binary64_sum :
  exists page_ranks,
    sample_pagerank single DAMPING 10 zeros = Ok page_ranks /\
    PrimFloat.eqb (sum (values page_ranks)) 1%float = false /\
    PrimFloat.ltb (sum (values page_ranks)) 1%float = true.
Proof. eexists. repeat split; vm_compute; reflexivity. Qed.

(** *** The general statements at the sample inputs *)

Lemma transition_model_distribution_hub :
  getitem hub "1.html" = Ok ["2.html"] /\
  exists distribution,
    transition_model hub "1.html" DAMPING = Ok distribution /\
    getitem distribution "2.html" =
    Ok (fadd (fdiv (fsub 1%float DAMPING) 4%float) (fdiv DAMPING 1%float)) /\
    getitem distribution "3.html" = Ok (fdiv (fsub 1%float DAMPING) 4%float).
Proof.
  split; [reflexivity|].
  destruct (transition_model_distribution hub "1.html" DAMPING ["2.html"]
              eq_refl) as (distribution & E & Hk).
  exists distribution. split; [assumption|]. split.
  - rewrite Hk by (simpl; tauto). reflexivity.
  - rewrite Hk by (simpl; tauto). reflexivity.
Defined.

Lemma transition_model_sink_single :
  getitem single "1.html" = Ok [] /\
  transition_model single "1.html" half = transition_model single "1.html" DAMPING.
Proof.
  split; [reflexivity|].
  exact (transition_model_sink_ignores_damping single "1.html" half DAMPING
           eq_refl).
Defined.

Lemma returned_keys_hub :
  (exists distribution,
      transition_model hub "1.html" half = Ok distribution /\
      forall k, In k (keys distribution) <-> In k (keys hub)) /\
  (exists page_ranks,
      sample_pagerank hub half 3 zeros = Ok page_ranks /\
      forall k, In k (keys page_ranks) <-> In k (keys hub)) /\
  (exists page_ranks,
      iterate_pagerank 2 hub half = Some (Ok page_ranks) /\
      forall k, In k (keys page_ranks) <-> In k (keys hub)).
Proof.
  destruct (returned_keys_are_corpus_keys hub half) as (Ht & Hs & Hi).
  split; [|split].
  - eexists. split; [vm_compute; reflexivity|].
    apply (Ht "1.html"). vm_compute; reflexivity.
  - eexists. split; [vm_compute; reflexivity|].
    apply (Hs 3 zeros). vm_compute; reflexivity.
  - eexists. split; [vm_compute; reflexivity|].
    apply (Hi 2%nat). vm_compute; reflexivity.
Defined.

Lemma sweep_reads_in_place_hub :
  let ranks0 := [("1.html", 0.25); ("2.html", 0.25);
                 ("3.html", 0.25); ("4.html", 0.25)]%float in
  let ranks1 := [("1.html", 0.5); ("2.html", 0.375);
                 ("3.html", 0.125); ("4.html", 0.125)]%float in
  NoDup (keys ranks0) /\
  keys ranks0 = (["1.html"] ++ "2.html" :: ["3.html"; "4.html"])%list /\
  sweep hub half (ranks0, false) = Ok (ranks1, false) /\
  exists seen new,
    getitem seen "1.html" = Ok 0.5%float /\
    getitem seen "3.html" = Ok 0.25%float /\
    new_page_rank hub half seen "2.html" = Ok new /\
    new = 0.375%float.
Proof.
  intros ranks0 ranks1.
  assert (Hnd : NoDup (keys ranks0)) by apply hub_well_typed.
  assert (Es : sweep hub half (ranks0, false) = Ok (ranks1, false))
    by (vm_compute; reflexivity).
  split; [assumption|]. split; [reflexivity|]. split; [assumption|].
  destruct (sweep_reads_in_place hub half ranks0 false ["1.html"]
              ["3.html"; "4.html"] "2.html" (ranks1, false) Hnd eq_refl Es)
    as (seen & new & Hbefore & Hafter & Hnew & Hget).
  exists seen, new. repeat split.
  - rewrite Hbefore by (simpl; tauto). reflexivity.
  - rewrite Hafter by (simpl; intuition discriminate). reflexivity.
  - assumption.
  - vm_compute in Hget. now injection Hget as <-.
Defined.

Lemma sample_pagerank_below_one_single :
  0 < 1 /\
  sample_pagerank single DAMPING 0 zeros = Raise ZeroDivisionError /\
  sample_pagerank (@nil (page * list page)) DAMPING 0 zeros = Raise IndexError.
Proof.
  split; [lia|]. split.
  - exact (sample_pagerank_below_one single DAMPING 0 zeros ltac:(lia)).
  - exact (sample_pagerank_below_one [] DAMPING 0 zeros ltac:(lia)).
Defined.

Lemma transition_model_sums_to_one_hub :
  well_typed hub /\ closed hub /\
  getitem hub "1.html" = Ok ["2.html"] /\
  exists distribution,
    transition_model hub "1.html" (85 # 100)%Q = Ok distribution /\
    (Qabs (sum (values distribution) - 1) <= 1 # 1000000000)%Q.
Proof.
  split; [apply hub_well_typed|]. split; [apply hub_closed|].
  split; [reflexivity|].
  exact (transition_model_sums_to_one hub "1.html" (85 # 100)%Q ["2.html"]
           hub_well_typed hub_closed eq_refl).
Defined.

Lemma transition_model_positive_hub :
  getitem hub "1.html" = Ok ["2.html"] /\
  (0 < 85 # 100)%Q /\ (85 # 100 < 1)%Q /\
  In "3.html" (keys hub) /\
  exists distribution v,
    transition_model hub "1.html" (85 # 100)%Q = Ok distribution /\
    getitem distribution "3.html" = Ok v /\
    (0 < v)%Q.
Proof.
  assert (Hk : In "3.html" (keys hub)) by (simpl; tauto).
  split; [reflexivity|]. split; [reflexivity|]. split; [reflexivity|].
  split; [assumption|].
  exact (transition_model_positive hub "1.html" (85 # 100)%Q ["2.html"]
           "3.html" eq_refl eq_refl eq_refl Hk).
Defined.

Lemma sample_pagerank_sum_exact_hub :
  well_typed hub /\ closed hub /\ hub <> [] /\ 1 <= 4 /\
  exists page_ranks,
    sample_pagerank hub (85 # 100)%Q 4 zeros = Ok page_ranks /\
    (sum (values page_ranks) == 1)%Q.
Proof.
  assert (Hne : hub <> []) by discriminate.
  assert (Hn : 1 <= 4) by lia.
  split; [apply hub_well_typed|]. split; [apply hub_closed|].
  split; [assumption|]. split; [assumption|].
  exact (sample_pagerank_sum_exact hub (85 # 100)%Q 4 zeros
           hub_well_typed hub_closed Hne Hn).
Defined.

End Runs.

(** * Further properties of pagerank.py *)

(** ** get_links *)

Section GetLinks.

Lemma get_links_from (corpus : corpus_t) (p : page) (ks acc : list page) :
  incl ks (keys corpus) ->
  foldM (fun links key =>
           s <- getitem corpus key ;;
           Ok (if contains p s then links ++ [key] else links))
        ks acc =
  Ok (acc ++ filter (links_to corpus p) ks).
Proof.
  revert acc; induction ks as [|k ks IH]; intros acc Hincl; simpl.
  - now rewrite app_nil_r.
  - destruct (In_getitem corpus k) as (s & Es); [apply Hincl; left; reflexivity|].
    unfold links_to at 1. rewrite Es; simpl.
    rewrite IH by (intros x Hx; apply Hincl; right; assumption).
    destruct (contains p s); [now rewrite <- app_assoc | reflexivity].
Qed.

Lemma get_links_filter (corpus : corpus_t) (p : page) :
  get_links p corpus = Ok (filter (links_to corpus p) (keys corpus)).
Proof. unfold get_links. now rewrite get_links_from by apply incl_refl. Qed.

(** X1: [get_links] never raises; it returns the pages of the corpus whose
    outbound set contains [p], each once when the keys are distinct. *)
Theorem get_links_characterisation (corpus : corpus_t) (p : page) :
  exists links,
    get_links p corpus = Ok links /\
    (forall q, In q links <-> exists s, getitem corpus q = Ok s /\ In p s) /\
    (NoDup (keys corpus) -> NoDup links).
Proof.
  exists (filter (links_to corpus p) (keys corpus)).
  split; [apply get_links_filter|]. split.
  - intros q. rewrite filter_In. unfold links_to. split.
    + intros [_ Hq]. destruct (getitem corpus q) as [s|e]; [|discriminate].
      exists s. split; [reflexivity | now apply contains_In].
    + intros (s & Es & Hp). split; [eapply getitem_In; eassumption|].
      rewrite Es. now apply contains_In.
  - apply NoDup_filter.
Qed.

End GetLinks.

(** ** transition_model on a page outside the corpus *)

Section UnknownPage.

Context {F : Type} `{PyFloat F}.

(** X2: [transition_model] returns exactly when the current page is a key
    of the corpus; otherwise, and so on every empty corpus, it raises
    [KeyError]. *)
Theorem transition_model_defined_on_keys (corpus : corpus_t) (p : page) (d : F) :
  (In p (keys corpus) ->
   exists distribution, transition_model corpus p d = Ok distribution) /\
  (~ In p (keys corpus) -> transition_model corpus p d = Raise KeyError) /\
  transition_model [] p d = Raise KeyError.
Proof.
  split; [|split].
  - intros Hp. destruct (In_getitem corpus p Hp) as (links & E).
    eexists. apply (transition_model_comprehension corpus p d links E).
  - apply transition_model_KeyError.
  - reflexivity.
Qed.

End UnknownPage.

(** ** iterate_pagerank: what it raises and when it returns *)

Section IterateEdges.

Context {F : Type} `{PyFloat F}.

(** X3: on the empty corpus the loop of [iterate_pagerank] never ends:
    no pass visits a page, so the flag [difference] is never set. *)
Theorem iterate_pagerank_empty_corpus_loops (d : F) (fuel : nat) :
  iterate_pagerank fuel [] d = None.
Proof.
  unfold iterate_pagerank; simpl. induction fuel as [|fuel IH]; simpl; auto.
Qed.

Lemma links_to_nonempty (corpus : corpus_t) (p k : page) :
  links_to corpus p k = true ->
  exists s, getitem corpus k = Ok s /\ (len s =? 0) = false.
Proof.
  unfold links_to. destruct (getitem corpus k) as [s|e]; [|discriminate].
  intros Hc. exists s. split; [reflexivity|].
  destruct s; [discriminate | reflexivity].
Qed.

Lemma new_page_rank_returns (corpus : corpus_t) (d : F) (page_ranks : dict F)
  (p : page) :
  corpus <> [] ->
  (forall k, In k (keys corpus) -> In k (keys page_ranks)) ->
  exists v, new_page_rank corpus d page_ranks p = Ok v.
Proof.
  intros Hne Hkeys. unfold new_page_rank.
  rewrite truediv_nonzero by (destruct corpus; [contradiction | reflexivity]).
  cbn [bind]. rewrite get_links_filter; cbn [bind].
  generalize (fdiv (fsub (of_int 1) d) (of_int (len corpus))).
  assert (Hl : forall k, In k (filter (links_to corpus p) (keys corpus)) ->
                         In k (keys corpus) /\ links_to corpus p k = true)
    by (intros k; apply filter_In).
  induction (filter (links_to corpus p) (keys corpus)) as [|k l IH];
    intros acc; simpl; [eauto|].
  destruct (Hl k (or_introl eq_refl)) as [Hk Hlink].
  destruct (In_getitem _ _ (Hkeys _ Hk)) as (r & Er).
  destruct (links_to_nonempty _ _ _ Hlink) as (s & Es & Hs).
  rewrite Er, Es; cbn [bind]. rewrite (truediv_nonzero _ _ Hs); cbn [bind].
  apply IH. intros k' Hk'. apply Hl. right; assumption.
Qed.

Lemma visit_returns (corpus : corpus_t) (d : F) (st : dict F * bool) (p : page) :
  (forall k, In k (keys corpus) <-> In k (keys (fst st))) ->
  In p (keys (fst st)) ->
  exists st', visit corpus d st p = Ok st'.
Proof.
  destruct st as [page_ranks difference]; simpl. intros Hkeys Hp.
  assert (Hne : corpus <> []).
  { intros ->. apply Hkeys in Hp. contradiction. }
  destruct (new_page_rank_returns corpus d page_ranks p Hne) as (new & En).
  { intros k. apply Hkeys. }
  destruct (In_getitem _ _ Hp) as (old & Eo).
  unfold visit. rewrite En; cbn [bind]. rewrite Eo; cbn [bind]. eauto.
Qed.

Lemma foldM_visit_returns (corpus : corpus_t) (d : F) (l : list page) :
  forall st,
    (forall k, In k (keys corpus) <-> In k (keys (fst st))) ->
    incl l (keys (fst st)) ->
    exists st', foldM (visit corpus d) l st = Ok st'.
Proof.
  induction l as [|p l IH]; intros st Hkeys Hl; simpl; [eauto|].
  destruct (visit_returns corpus d st p Hkeys) as (st1 & E1).
  { apply Hl; left; reflexivity. }
  rewrite E1; cbn [bind]. pose proof (visit_keys _ _ _ _ _ E1) as Hk1.
  apply IH; rewrite Hk1; [assumption|].
  intros k Hk. apply Hl; right; assumption.
Qed.

Lemma sweep_returns (corpus : corpus_t) (d : F) (st : dict F * bool) :
  (forall k, In k (keys corpus) <-> In k (keys (fst st))) ->
  exists st', sweep corpus d st = Ok st'.
Proof.
  intros Hkeys. apply foldM_visit_returns; [assumption | apply incl_refl].
Qed.

Lemma iterate_loop_never_raises (corpus : corpus_t) (d : F) (fuel : nat) :
  forall st,
    (forall k, In k (keys corpus) <-> In k (keys (fst st))) ->
    iterate_loop fuel corpus d st = None \/
    exists page_ranks, iterate_loop fuel corpus d st = Some (Ok page_ranks).
Proof.
  induction fuel as [|fuel IH]; intros st Hkeys; simpl;
    destruct (snd st); eauto.
  destruct (sweep_returns corpus d st Hkeys) as (st' & E). rewrite E.
  apply IH. intros k. rewrite (sweep_keys _ _ _ _ E). apply Hkeys.
Qed.

(** X4: [iterate_pagerank] raises nothing, whatever the corpus: each
    look-up it makes is of a page of the corpus, and each division is by
    the size of a non-empty collection.  It either returns a mapping or is
    still looping. *)
Theorem iterate_pagerank_never_raises (corpus : corpus_t) (d : F) (fuel : nat) :
  iterate_pagerank fuel corpus d = None \/
  exists page_ranks, iterate_pagerank fuel corpus d = Some (Ok page_ranks).
Proof.
  unfold iterate_pagerank. rewrite initial_ranks_comprehension.
  apply iterate_loop_never_raises. intros k; simpl.
  symmetry. apply In_keys_comprehension.
Qed.

(** A pass leaves every page it visits without inbound links at the base
    rank. *)
Lemma foldM_visit_no_inbound (corpus : corpus_t) (d : F) (p : page) (l : list page) :
  get_links p corpus = Ok [] ->
  forall st st',
    foldM (visit corpus d) l st = Ok st' ->
    In p l \/
    getitem (fst st) p = Ok (fdiv (fsub (of_int 1) d) (of_int (len corpus))) ->
    getitem (fst st') p = Ok (fdiv (fsub (of_int 1) d) (of_int (len corpus))).
Proof.
  intros Hp. induction l as [|q l IH]; intros st st' E Hst; simpl in E.
  - injection E as <-. destruct Hst as [[]|?]; assumption.
  - apply bind_Ok in E as (st1 & E1 & E). apply (IH _ _ E).
    destruct (string_dec q p) as [->|Hne].
    + right. destruct (visit_self _ _ _ _ _ E1) as (new & En & Eg).
      rewrite Eg. unfold new_page_rank in En. rewrite Hp in En.
      apply bind_Ok in En as (base & Eb & En). simpl in En.
      injection En as <-. unfold truediv in Eb.
      destruct (len corpus =? 0); [discriminate | now symmetry].
    + destruct Hst as [[?|?]|Hst]; [congruence | now left |].
      right. rewrite <- Hst. eapply visit_other; [eassumption | congruence].
Qed.

Lemma iterate_loop_no_inbound (corpus : corpus_t) (d : F) (p : page) (fuel : nat) :
  get_links p corpus = Ok [] ->
  forall st page_ranks,
    iterate_loop fuel corpus d st = Some (Ok page_ranks) ->
    In p (keys (fst st)) ->
    (snd st = true ->
     getitem (fst st) p = Ok (fdiv (fsub (of_int 1) d) (of_int (len corpus)))) ->
    getitem page_ranks p = Ok (fdiv (fsub (of_int 1) d) (of_int (len corpus))).
Proof.
  intros Hp. induction fuel as [|fuel IH]; intros st page_ranks E Hin Hst;
    simpl in E; destruct (snd st) eqn:Eflag;
    try (injection E as <-; auto); try discriminate.
  destruct (sweep corpus d st) as [st'|e] eqn:Es; [|discriminate].
  assert (Hget : getitem (fst st') p =
                 Ok (fdiv (fsub (of_int 1) d) (of_int (len corpus)))).
  { eapply foldM_visit_no_inbound; [eassumption | apply Es | now left]. }
  apply (IH _ _ E); [|auto].
  rewrite (sweep_keys _ _ _ _ Es). assumption.
Qed.

(** X5: a page of the corpus that no page links to has rank exactly
    [(1 - d) / N] in whatever mapping [iterate_pagerank] returns. *)
Theorem iterate_pagerank_no_inbound_links (corpus : corpus_t) (d : F)
  (fuel : nat) (p : page) (page_ranks : dict F) :
  In p (keys corpus) ->
  get_links p corpus = Ok [] ->
  iterate_pagerank fuel corpus d = Some (Ok page_ranks) ->
  getitem page_ranks p = Ok (fdiv (fsub (of_int 1) d) (of_int (len corpus))).
Proof.
  intros Hin Hp. unfold iterate_pagerank. rewrite initial_ranks_comprehension.
  intros E. apply (iterate_loop_no_inbound corpus d p fuel Hp _ _ E).
  - simpl. now apply In_keys_comprehension.
  - discriminate.
Qed.

End IterateEdges.

(** ** Bounds on the ranks, in exact arithmetic *)

Section ExactBounds.

Open Scope Q_scope.

Lemma setitem_values_bound (b : Q) (d : dict Q) (k : page) (v : Q) :
  Forall (Qle b) (values d) -> b <= v -> Forall (Qle b) (values (setitem d k v)).
Proof.
  intros Hd Hv. induction d as [|[k0 v0] d IH]; simpl.
  - repeat constructor. assumption.
  - rewrite values_cons in Hd. inversion Hd; subst.
    destruct (String.eqb k0 k); rewrite values_cons; constructor; auto.
Qed.

Lemma getitem_values (d : dict Q) (k : page) (v : Q) :
  getitem d k = Ok v -> In v (values d).
Proof.
  intros E. apply getitem_In_entry in E. unfold values.
  apply (in_map snd) in E. exact E.
Qed.

Lemma getitem_bound (b : Q) (d : dict Q) (k : page) (v : Q) :
  Forall (Qle b) (values d) -> getitem d k = Ok v -> b <= v.
Proof.
  intros Hd E. rewrite Forall_forall in Hd. apply Hd.
  eapply getitem_values; eassumption.
Qed.

Lemma positive_len (n : Z) : (n =? 0)%Z = false -> (0 <= n)%Z -> 0 < inject_Z n.
Proof. intros E Hn. apply Z.eqb_neq in E. unfold Qlt; simpl. lia. Qed.

Lemma Qdiv_nonneg (x : Q) (n : Z) : 0 <= x -> (0 < n)%Z -> 0 <= x / inject_Z n.
Proof.
  intros Hx Hn. apply Qle_shift_div_l.
  - unfold Qlt; simpl. lia.
  - now rewrite Qmult_0_l.
Qed.

Lemma truediv_exact (x : Q) (n : Z) (v : Q) :
  truediv x n = Ok v -> (n =? 0)%Z = false /\ v = x / inject_Z n.
Proof.
  unfold truediv. destruct (n =? 0)%Z; [discriminate|].
  intros E; injection E as <-. split; reflexivity.
Qed.

(** The sum over the incoming links only adds to the base term. *)
Lemma incoming_links_lower (corpus : corpus_t) (d : Q) (page_ranks : dict Q)
  (links : list page) :
  0 <= d ->
  Forall (Qle 0) (values page_ranks) ->
  forall acc v : Q,
    foldM (fun acc link =>
             r <- getitem page_ranks link ;;
             s <- getitem corpus link ;;
             q <- truediv r (len s) ;;
             Ok (fadd acc (fmul d q)))
          links acc = Ok v ->
    acc <= v.
Proof.
  intros Hd Hranks. induction links as [|link links IH]; intros acc v E;
    simpl in E.
  - injection E as <-. apply Qle_refl.
  - apply bind_Ok in E as (acc' & E1 & E). apply IH in E.
    apply bind_Ok in E1 as (r & Er & E1). apply bind_Ok in E1 as (s & Es & E1).
    apply bind_Ok in E1 as (q & Eq & E1). injection E1 as <-.
    apply truediv_exact in Eq as [Hs ->]. cbn [fadd fmul exact] in E.
    eapply Qle_trans; [|exact E].
    rewrite <- (Qplus_0_r acc) at 1. apply Qplus_le_compat; [apply Qle_refl|].
    apply Qmult_le_0_compat; [assumption|].
    apply Qdiv_nonneg; [eapply getitem_bound; eassumption|].
    unfold len in *. apply Z.eqb_neq in Hs. lia.
Qed.

Lemma new_page_rank_lower (corpus : corpus_t) (d : Q) (page_ranks : dict Q)
  (p : page) (v : Q) :
  0 <= d ->
  Forall (Qle 0) (values page_ranks) ->
  new_page_rank corpus d page_ranks p = Ok v ->
  (1 - d) / inject_Z (len corpus) <= v.
Proof.
  intros Hd Hranks. unfold new_page_rank. intros E.
  apply bind_Ok in E as (base & Eb & E). apply bind_Ok in E as (links & _ & E).
  apply truediv_exact in Eb as [_ ->].
  apply (incoming_links_lower corpus d page_ranks links Hd Hranks) in E.
  exact E.
Qed.

Lemma comprehension_values_bound (b : Q) (f : page -> Q) (ks : list page) :
  (forall k, b <= f k) -> Forall (Qle b) (values (comprehension f ks)).
Proof.
  intros Hf. unfold comprehension.
  assert (Hnil : Forall (Qle b) (values (@nil (page * Q)))) by constructor.
  revert Hnil. generalize (@nil (page * Q)).
  induction ks as [|k ks IH]; intros d0 Hd0; simpl; [assumption|].
  apply IH. now apply setitem_values_bound.
Qed.

Lemma base_nonneg (corpus : corpus_t) (d : Q) :
  d <= 1 -> 0 <= (1 - d) / inject_Z (len corpus).
Proof.
  intros Hd. destruct corpus as [|e corpus].
  - unfold len; simpl. unfold Qdiv, Qinv; simpl. rewrite Qmult_0_r. apply Qle_refl.
  - apply Qdiv_nonneg; [|unfold len; simpl; lia].
    now apply (proj1 (Qle_minus_iff d 1)).
Qed.

Lemma visit_lower (corpus : corpus_t) (d : Q) (st st' : dict Q * bool) (p : page) :
  0 <= d -> d <= 1 ->
  Forall (Qle 0) (values (fst st)) ->
  visit corpus d st p = Ok st' ->
  Forall (Qle 0) (values (fst st')) /\
  exists new, getitem (fst st') p = Ok new /\
              (1 - d) / inject_Z (len corpus) <= new.
Proof.
  intros Hd0 Hd1 Hst E. destruct (visit_self _ _ _ _ _ E) as (new & En & Eg).
  pose proof (new_page_rank_lower _ _ _ _ _ Hd0 Hst En) as Hnew.
  split; [|eauto].
  destruct st as [page_ranks difference]. unfold visit in E. simpl in *.
  rewrite En in E; cbn [bind] in E.
  apply bind_Ok in E as (old & _ & E). injection E as <-. simpl.
  apply setitem_values_bound; [assumption|].
  eapply Qle_trans; [apply (base_nonneg corpus d Hd1) | exact Hnew].
Qed.

Lemma foldM_visit_lower (corpus : corpus_t) (d : Q) (l : list page) :
  0 <= d -> d <= 1 ->
  forall st st',
    Forall (Qle 0) (values (fst st)) ->
    foldM (visit corpus d) l st = Ok st' ->
    Forall (Qle 0) (values (fst st')) /\
    forall k v, In k l -> getitem (fst st') k = Ok v ->
                (1 - d) / inject_Z (len corpus) <= v.
Proof.
  intros Hd0 Hd1. induction l as [|p l IH]; intros st st' Hst E; simpl in E.
  - injection E as <-. split; [assumption | intros k v []].
  - apply bind_Ok in E as (st1 & E1 & E).
    destruct (visit_lower _ _ _ _ _ Hd0 Hd1 Hst E1) as (Hst1 & new & Eg & Hnew).
    destruct (IH _ _ Hst1 E) as (Hst' & Hl). split; [assumption|].
    intros k v Hk Ev. destruct (in_dec string_dec k l) as [Hin|Hout].
    + eapply Hl; eassumption.
    + destruct Hk as [->|Hk]; [|contradiction].
      rewrite (foldM_visit_other _ _ _ _ _ k E Hout), Eg in Ev.
      now injection Ev as <-.
Qed.

Lemma sweep_lower (corpus : corpus_t) (d : Q) (st st' : dict Q * bool) :
  0 <= d -> d <= 1 ->
  Forall (Qle 0) (values (fst st)) ->
  sweep corpus d st = Ok st' ->
  Forall (Qle 0) (values (fst st')) /\
  forall k v, getitem (fst st') k = Ok v ->
              (1 - d) / inject_Z (len corpus) <= v.
Proof.
  intros Hd0 Hd1 Hst E.
  destruct (foldM_visit_lower corpus d _ Hd0 Hd1 _ _ Hst E) as (Hst' & Hl).
  split; [assumption|]. intros k v Ev. apply (Hl k v); [|assumption].
  rewrite <- (sweep_keys _ _ _ _ E). eapply getitem_In; eassumption.
Qed.

Lemma iterate_loop_lower (corpus : corpus_t) (d : Q) (fuel : nat) :
  0 <= d -> d <= 1 ->
  forall st page_ranks,
    Forall (Qle 0) (values (fst st)) ->
    (snd st = true ->
     forall k v, getitem (fst st) k = Ok v ->
                 (1 - d) / inject_Z (len corpus) <= v) ->
    iterate_loop fuel corpus d st = Some (Ok page_ranks) ->
    forall k v, getitem page_ranks k = Ok v ->
                (1 - d) / inject_Z (len corpus) <= v.
Proof.
  intros Hd0 Hd1. induction fuel as [|fuel IH]; intros st page_ranks Hst Hflag E;
    simpl in E; destruct (snd st) eqn:Eflag;
    try (injection E as <-; exact (Hflag eq_refl)); try discriminate.
  destruct (sweep corpus d st) as [st'|e] eqn:Es; [|discriminate].
  destruct (sweep_lower _ _ _ _ Hd0 Hd1 Hst Es) as (Hst' & Hl).
  apply (IH _ _ Hst' (fun _ => Hl) E).
Qed.

(** X6: in exact arithmetic, with a damping factor strictly between 0
    and 1, every rank [iterate_pagerank] returns is at least [(1 - d) / N],
    and so strictly positive. *)
Theorem iterate_pagerank_rank_lower_bound (corpus : corpus_t) (d : Q)
  (fuel : nat) (page_ranks : dict Q) (k : page) (v : Q) :
  0 < d -> d < 1 ->
  iterate_pagerank fuel corpus d = Some (Ok page_ranks) ->
  getitem page_ranks k = Ok v ->
  (1 - d) / inject_Z (len corpus) <= v /\ 0 < v.
Proof.
  intros Hd0 Hd1 E Ev.
  assert (Hne : corpus <> []).
  { intros ->. apply getitem_In in Ev.
    apply (iterate_pagerank_keys _ _ _ _ E) in Ev. contradiction. }
  assert (Hbase : 0 < (1 - d) / inject_Z (len corpus)).
  { apply Qdiv_positive; [now apply (proj1 (Qlt_minus_iff d 1))|].
    destruct corpus; [contradiction | unfold len; simpl; lia]. }
  assert (Hlow : (1 - d) / inject_Z (len corpus) <= v).
  { unfold iterate_pagerank in E. rewrite initial_ranks_comprehension in E.
    apply (iterate_loop_lower corpus d fuel (Qlt_le_weak _ _ Hd0)
             (Qlt_le_weak _ _ Hd1) _ _) with (k := k) (v := v) in E;
      [assumption | | discriminate | assumption].
    simpl. apply comprehension_values_bound. intros _.
    apply Qdiv_nonneg; [discriminate|].
    destruct corpus; [contradiction | unfold len; simpl; lia]. }
  split; [assumption|]. eapply Qlt_le_trans; eassumption.
Qed.

End ExactBounds.

(** ** Range of the tallies, in exact arithmetic *)

Section ExactTallies.

Open Scope Q_scope.

Lemma choice_In (seq : list page) (g g' : rng) (a : page) :
  choice seq g = Ok (a, g') -> In a seq.
Proof.
  unfold choice. destruct seq as [|a0 seq]; [discriminate|].
  destruct (next g) as [r g0]. intros E.
  assert (Ha : a = nth (Z.to_nat (r mod len (a0 :: seq))) (a0 :: seq) a0)
    by congruence.
  rewrite Ha. apply nth_In.
  assert (0 <= r mod len (a0 :: seq) < len (a0 :: seq))%Z
    by (apply Z.mod_pos_bound; unfold len; simpl; lia).
  unfold len in *. lia.
Qed.

Lemma sample_step_nonneg (corpus : corpus_t) (d step : Q)
  (st st' : dict Q * page * rng) :
  0 <= step ->
  Forall (Qle 0) (values (fst (fst st))) ->
  sample_step corpus d step st = Ok st' ->
  Forall (Qle 0) (values (fst (fst st'))).
Proof.
  destruct st as [[page_ranks current_page] g]. unfold sample_step.
  intros Hstep Hst E. inv_bind. subst st'; simpl in *.
  apply setitem_values_bound; [assumption|].
  rewrite <- (Qplus_0_r 0). apply Qplus_le_compat; [|assumption].
  eapply getitem_bound; eassumption.
Qed.

Lemma sample_loop_nonneg (corpus : corpus_t) (d step : Q) (i : nat) :
  0 <= step ->
  forall st st',
    Forall (Qle 0) (values (fst (fst st))) ->
    sample_loop i corpus d step st = Ok st' ->
    Forall (Qle 0) (values (fst (fst st'))).
Proof.
  intros Hstep. induction i as [|i IH]; intros st st' Hst E; simpl in E.
  - now injection E as <-.
  - apply bind_Ok in E as (st1 & E1 & E). apply (IH _ _ (sample_step_nonneg
      _ _ _ _ _ Hstep Hst E1) E).
Qed.

Lemma sum_nonneg (xs : list Q) : Forall (Qle 0) xs -> 0 <= sum xs.
Proof.
  induction 1 as [|x xs Hx _ IH].
  - unfold sum; simpl. discriminate.
  - rewrite sum_cons, <- (Qplus_0_r 0). now apply Qplus_le_compat.
Qed.

Lemma member_le_sum (xs : list Q) (v : Q) :
  Forall (Qle 0) xs -> In v xs -> v <= sum xs.
Proof.
  induction 1 as [|x xs Hx Hxs IH]; intros Hin; [contradiction|].
  rewrite sum_cons. destruct Hin as [->|Hin].
  - rewrite <- (Qplus_0_r v) at 1.
    apply Qplus_le_compat; [apply Qle_refl | now apply sum_nonneg].
  - rewrite <- (Qplus_0_l v). apply Qplus_le_compat; auto.
Qed.

(** In exact arithmetic, on a corpus as [crawl] builds it and for
    [n >= 1], every tally [sample_pagerank] returns lies between 0 and 1.
    The upper bound is a fact of exact arithmetic only: see
    [sample_pagerank_binary64_tally_above_one]. *)
Theorem sample_pagerank_tally_range (corpus : corpus_t) (d : Q) (n : Z)
  (g : rng) (page_ranks : dict Q) (k : page) (v : Q) :
  well_typed corpus -> closed corpus ->
  (1 <= n)%Z ->
  sample_pagerank corpus d n g = Ok page_ranks ->
  getitem page_ranks k = Ok v ->
  0 <= v <= 1.
Proof.
  intros Hwt Hclosed Hn E Ev. unfold sample_pagerank in E.
  apply bind_Ok in E as ([start g1] & Ec & E).
  apply bind_Ok in E as (step & Es & E).
  apply bind_Ok in E as ([[ranks last_page] g2] & El & E).
  injection E as <-. apply choice_In in Ec. apply truediv_exact in Es as [_ ->].
  assert (Hstep : 0 <= 1 / inject_Z n) by (apply Qdiv_nonneg; [discriminate | lia]).
  assert (Hnonneg : Forall (Qle 0) (values ranks)).
  { apply (sample_loop_nonneg _ _ _ _ Hstep _ _) in El; [exact El|].
    simpl. apply comprehension_values_bound. intros _. discriminate. }
  destruct (sample_loop_exact corpus d (1 / inject_Z n) (Z.to_nat n) Hwt Hclosed
              (comprehension (fun _ => of_int 0) (keys corpus)) start g1 Ec)
    as (ranks' & last' & g' & El' & Hsum).
  { intros k0 Hk0. now apply In_keys_comprehension. }
  assert (Esame : Ok (ranks', last', g') = Ok (ranks, last_page, g2))
    by (rewrite <- El, <- El'; reflexivity).
  injection Esame as -> -> ->.
  split; [eapply getitem_bound; eassumption|].
  apply getitem_values in Ev. apply (member_le_sum _ _ Hnonneg) in Ev.
  eapply Qle_trans; [exact Ev|]. rewrite Hsum.
  rewrite comprehension_NoDup by apply Hwt.
  rewrite values_map, sum_map_const, Z2Nat.id by lia.
  cbn [of_int exact]. change (inject_Z 0) with 0.
  apply Qle_lteq. right. field. intros E0. unfold Qeq in E0; simpl in E0. lia.
Qed.

End ExactTallies.

(** ** crawl *)

Section DictEntries.

Context {V : Type}.
Implicit Types (d : dict V) (k : page) (v : V).

Lemma NoDup_keys_setitem d k v : NoDup (keys d) -> NoDup (keys (setitem d k v)).
Proof.
  intros Hnd. destruct (in_dec string_dec k (keys d)) as [Hin|Hout].
  - now rewrite keys_setitem_present.
  - rewrite keys_setitem_absent by assumption.
    apply NoDup_app; [assumption | repeat constructor; simpl; tauto |].
    intros x Hx [<-|[]]. contradiction.
Qed.

Lemma Forall_setitem (P : page * V -> Prop) d k v :
  Forall P d -> P (k, v) -> Forall P (setitem d k v).
Proof.
  intros Hd Hkv. induction d as [|[k0 v0] d IH]; simpl.
  - repeat constructor. assumption.
  - inversion Hd; subst. destruct (String.eqb_spec k0 k) as [->|Hne];
      constructor; auto.
Qed.

Lemma getitem_middle (front back : dict V) k v :
  ~ In k (keys front) -> getitem (front ++ (k, v) :: back) k = Ok v.
Proof.
  induction front as [|[k0 v0] front IH]; simpl; intros Hk.
  - now rewrite String.eqb_refl.
  - destruct (String.eqb_spec k0 k); [tauto | apply IH; tauto].
Qed.

Lemma setitem_middle (front back : dict V) k v v' :
  ~ In k (keys front) ->
  setitem (front ++ (k, v) :: back) k v' = front ++ (k, v') :: back.
Proof.
  induction front as [|[k0 v0] front IH]; simpl; intros Hk.
  - now rewrite String.eqb_refl.
  - destruct (String.eqb_spec k0 k); [tauto | f_equal; apply IH; tauto].
Qed.

Lemma getitem_map_values {W : Type} (h : V -> W) d k :
  getitem (map (fun e => (fst e, h (snd e))) d) k =
  v <- getitem d k ;; Ok (h v).
Proof.
  induction d as [|[k0 v0] d IH]; simpl; [reflexivity|].
  destruct (String.eqb k0 k); [reflexivity | assumption].
Qed.

End DictEntries.

Section CrawlProperties.

Variable findall : string -> list page.

Open Scope string_scope.
Open Scope list_scope.

Lemma NoDup_remove_all (x : page) (l : list page) :
  NoDup l -> NoDup (remove string_dec x l).
Proof.
  induction 1 as [|y l Hy Hl IH]; simpl; [constructor|].
  destruct (string_dec x y); [assumption|].
  constructor; [|assumption]. intros Hin. apply in_remove in Hin. tauto.
Qed.

Lemma own_links_tidy (filename : page) (contents : string) :
  tidy (filename, own_links findall filename contents).
Proof.
  split; simpl; unfold own_links.
  - apply NoDup_remove_all, NoDup_nodup.
  - apply remove_In.
Qed.

Lemma extract_links_invariant (listing : list (page * string)) :
  forall pages : corpus_t,
    NoDup (keys pages) -> Forall tidy pages ->
    NoDup (keys (fold_left (extract_step findall) listing pages)) /\
    Forall tidy (fold_left (extract_step findall) listing pages).
Proof.
  induction listing as [|[filename contents] listing IH]; intros pages Hnd Ht;
    simpl; [auto|].
  destruct (endswith filename ".html"); simpl; apply IH; auto.
  - now apply NoDup_keys_setitem.
  - apply Forall_setitem; [assumption | apply own_links_tidy].
Qed.

Lemma extract_links_keys (listing : list (page * string)) :
  forall (pages : corpus_t) (k : page),
    In k (keys (fold_left (extract_step findall) listing pages)) <->
    In k (keys pages) \/
    exists contents, In (k, contents) listing /\ endswith k ".html" = true.
Proof.
  induction listing as [|[filename contents] listing IH]; intros pages k; simpl.
  - split; [auto | intros [?|(c & [] & _)]; assumption].
  - rewrite IH. destruct (endswith filename ".html") eqn:Eh; simpl.
    + rewrite In_keys_setitem. split.
      * intros [[->|Hk]|(c & Hc & E)]; eauto 6.
      * intros [Hk|(c & [Hc|Hc] & E)]; eauto 6.
        injection Hc as <- <-. auto.
    + split.
      * intros [Hk|(c & Hc & E)]; eauto 6.
      * intros [Hk|(c & [Hc|Hc] & E)]; eauto 6.
        injection Hc as <- <-. congruence.
Qed.

Lemma extract_links_untouched (listing : list (page * string)) (f : page) :
  ~ In f (map fst listing) ->
  forall pages : corpus_t,
    getitem (fold_left (extract_step findall) listing pages) f = getitem pages f.
Proof.
  induction listing as [|[filename contents] listing IH]; intros Hf pages;
    simpl in *; [reflexivity|].
  rewrite IH by tauto.
  destruct (endswith filename ".html"); simpl; [|reflexivity].
  apply getitem_setitem_other. tauto.
Qed.

Lemma extract_links_getitem (listing : list (page * string)) (f : page)
  (contents : string) :
  NoDup (map fst listing) ->
  In (f, contents) listing ->
  endswith f ".html" = true ->
  forall pages : corpus_t,
    getitem (fold_left (extract_step findall) listing pages) f =
    Ok (own_links findall f contents).
Proof.
  induction listing as [|[f0 c0] listing IH]; intros Hnd Hin Hh pages;
    simpl in *; [contradiction|].
  inversion Hnd as [|? ? Hf0 Hnd']; subst.
  destruct Hin as [E|Hin].
  - injection E as -> ->. rewrite Hh; simpl.
    rewrite extract_links_untouched by assumption.
    apply getitem_setitem_same.
  - now apply IH.
Qed.

Lemma keys_internal_links (K : list page) (pages : corpus_t) :
  keys (map (internal_links K) pages) = keys pages.
Proof. unfold keys. rewrite map_map. reflexivity. Qed.

(** The second loop rewrites every entry once, against the same keys. *)
Lemma keep_internal_from (todo : corpus_t) :
  forall front : corpus_t,
    NoDup (keys (front ++ todo)) ->
    foldM (fun pages filename =>
             links <- getitem pages filename ;;
             Ok (setitem pages filename
                         (nodup string_dec
                                (filter (fun link => contains link (keys pages))
                                        links))))
          (keys todo) (front ++ todo) =
    Ok (front ++ map (internal_links (keys (front ++ todo))) todo).
Proof.
  induction todo as [|[k s] todo IH]; intros front Hnd; simpl.
  - reflexivity.
  - assert (Hk : ~ In k (keys front)).
    { unfold keys in *. rewrite map_app in Hnd. simpl in Hnd.
      apply NoDup_remove_2 in Hnd. intros Hin. apply Hnd, in_or_app. auto. }
    rewrite getitem_middle by assumption. cbn [bind].
    rewrite setitem_middle by assumption.
    set (v := nodup string_dec
                (filter (fun link => contains link (keys (front ++ (k, s) :: todo))) s)).
    assert (Hkeys : keys ((front ++ [(k, v)]) ++ todo) =
                    keys (front ++ (k, s) :: todo)).
    { unfold keys. rewrite <- app_assoc, !map_app. reflexivity. }
    pose proof (IH (front ++ [(k, v)])) as Hrest.
    rewrite Hkeys, <- !app_assoc in Hrest. simpl in Hrest.
    etransitivity; [apply Hrest; assumption | reflexivity].
Qed.

Lemma keep_internal_map (pages : corpus_t) :
  NoDup (keys pages) ->
  keep_internal pages = Ok (map (internal_links (keys pages)) pages).
Proof. intros Hnd. apply (keep_internal_from pages [] Hnd). Qed.

Lemma crawl_map (listing : list (page * string)) :
  crawl findall listing =
  Ok (map (internal_links (keys (extract_links findall listing)))
          (extract_links findall listing)).
Proof.
  unfold crawl. apply keep_internal_map.
  apply (extract_links_invariant listing []); constructor.
Qed.

Lemma In_internal_links (K : list page) (e : page * list page) (link : page) :
  In link (snd (internal_links K e)) <-> In link (snd e) /\ In link K.
Proof.
  unfold internal_links; simpl.
  rewrite nodup_In, filter_In, contains_In. reflexivity.
Qed.

Lemma getitem_internal_links (K : list page) (pages : corpus_t) (k : page) :
  getitem (map (internal_links K) pages) k =
  s <- getitem pages k ;;
  Ok (nodup string_dec (filter (fun link => contains link K) s)).
Proof.
  exact (getitem_map_values
           (fun s => nodup string_dec (filter (fun link => contains link K) s))
           pages k).
Qed.

(** X8: [crawl] raises nothing and returns a corpus that is a dictionary
    of sets (distinct keys, no repeated link) in which every link points
    to a page of the corpus and no page links to itself. *)
Theorem crawl_builds_closed_corpus (listing : list (page * string)) :
  exists corpus,
    crawl findall listing = Ok corpus /\
    well_typed corpus /\ closed corpus /\ Forall tidy corpus.
Proof.
  eexists. split; [apply crawl_map|].
  destruct (extract_links_invariant listing []) as [Hnd Htidy];
    [constructor | constructor |].
  fold (extract_links findall listing) in Hnd, Htidy.
  set (pages := extract_links findall listing) in *.
  rewrite Forall_forall in Htidy.
  repeat split.
  - now rewrite keys_internal_links.
  - apply Forall_forall. intros e' He'. apply in_map_iff in He' as (e & <- & He).
    apply NoDup_nodup.
  - unfold closed. apply Forall_forall. intros e' He'.
    apply in_map_iff in He' as (e & <- & He).
    intros link Hlink. apply In_internal_links in Hlink.
    rewrite keys_internal_links. tauto.
  - apply Forall_forall. intros e' He'. apply in_map_iff in He' as (e & <- & He).
    split; [apply NoDup_nodup|]. intros Hself.
    apply In_internal_links in Hself. simpl in Hself.
    destruct (Htidy e He) as [_ Hno]. tauto.
Qed.

(** X9: the pages of the corpus [crawl] returns are exactly the listed
    files whose name ends in [.html]; other files are ignored. *)
Theorem crawl_keys_are_html_files (listing : list (page * string)) :
  exists corpus,
    crawl findall listing = Ok corpus /\
    forall k, In k (keys corpus) <->
              exists contents,
                In (k, contents) listing /\ endswith k ".html" = true.
Proof.
  eexists. split; [apply crawl_map|]. intros k.
  rewrite keys_internal_links. unfold extract_links.
  rewrite extract_links_keys. simpl. tauto.
Qed.

(** X10: for a listed [.html] file, when file names are distinct, the
    links [crawl] records are those found in its text that name another
    page of the corpus. *)
Theorem crawl_links_of_file (listing : list (page * string)) (f : page)
  (contents : string) (corpus : corpus_t) :
  NoDup (map fst listing) ->
  In (f, contents) listing ->
  endswith f ".html" = true ->
  crawl findall listing = Ok corpus ->
  exists links,
    getitem corpus f = Ok links /\
    forall link, In link links <->
                 In link (findall contents) /\ link <> f /\ In link (keys corpus).
Proof.
  intros Hnd Hin Hh E. rewrite crawl_map in E. injection E as <-.
  rewrite getitem_internal_links. unfold extract_links at 1.
  rewrite (extract_links_getitem listing f contents Hnd Hin Hh). cbn [bind].
  eexists. split; [reflexivity|]. intros link.
  rewrite nodup_In, filter_In, contains_In, keys_internal_links.
  unfold own_links. split.
  - intros [Hl HK]. apply in_remove in Hl as [Hl Hne].
    rewrite nodup_In in Hl. tauto.
  - intros (Hl & Hne & HK). split; [|assumption].
    apply in_in_remove; [assumption | now apply nodup_In].
Qed.

End CrawlProperties.

(** * Properties of shopping.py *)

(** ** evaluate *)

Section EvaluateErrors.

Context {F : Type} `{PyFloat F}.

Lemma count_zero_iff (x : Z) (xs : list Z) : count x xs = 0 <-> ~ In x xs.
Proof.
  unfold count. rewrite (count_occ_not_In Z.eq_dec). lia.
Qed.

Lemma evaluate_returns (labels predictions : list Z) :
  In 1 labels -> In 0 labels ->
  exists rates : F * F, evaluate labels predictions = Ok rates.
Proof.
  intros H1 H0. unfold evaluate.
  destruct (fold_left _ (combine labels predictions) (of_int 0, of_int 0))
    as [sensitivity specificity].
  unfold truediv.
  destruct (Z.eqb_spec (count 1 labels) 0) as [E|_];
    [apply count_zero_iff in E; contradiction|].
  destruct (Z.eqb_spec (count 0 labels) 0) as [E|_];
    [apply count_zero_iff in E; contradiction|].
  simpl. eauto.
Qed.

(** X11: [evaluate] returns exactly when the labels hold at least one [1]
    and at least one [0]; otherwise one of its two divisions is by zero and
    it raises [ZeroDivisionError], whatever the predictions. *)
Theorem evaluate_needs_both_classes (labels predictions : list Z) :
  (In 1 labels /\ In 0 labels ->
   exists rates : F * F, evaluate labels predictions = Ok rates) /\
  (~ In 1 labels \/ ~ In 0 labels ->
   @evaluate F _ labels predictions = Raise ZeroDivisionError).
Proof.
  split; [intros [H1 H0]; now apply evaluate_returns|].
  unfold evaluate.
  destruct (fold_left _ (combine labels predictions) (of_int 0, of_int 0))
    as [sensitivity specificity].
  unfold truediv.
  - intros Hmissing.
    destruct (Z.eqb_spec (count 1 labels) 0) as [_|E1]; [reflexivity|].
    destruct (Z.eqb_spec (count 0 labels) 0) as [_|E0]; [reflexivity|].
    rewrite <- !count_zero_iff in Hmissing. tauto.
Qed.

End EvaluateErrors.

Section EvaluateExact.

Open Scope Q_scope.

Lemma evaluate_loop_counts (pairs : list (Z * Z)) :
  forall a b a' b' : Q,
    fold_left (fun acc pair =>
                 let '(sensitivity, specificity) := acc in
                 let '(actual, predicted) := pair in
                 if (actual =? predicted)%Z then
                   if (actual =? 1)%Z
                   then (fadd sensitivity (of_int 1), specificity)
                   else (sensitivity, fadd specificity (of_int 1))
                 else (sensitivity, specificity))
              pairs (a, b) = (a', b') ->
    a' == a + inject_Z (len (filter (fun pair => (fst pair =? snd pair)%Z &&
                                                 (fst pair =? 1)%Z) pairs)) /\
    b' == b + inject_Z (len (filter (fun pair => (fst pair =? snd pair)%Z &&
                                                 negb (fst pair =? 1)%Z) pairs)).
Proof.
  induction pairs as [|[actual predicted] pairs IH]; intros a b a' b' E;
    simpl in E.
  - injection E as <- <-. unfold len; simpl. change (inject_Z 0) with 0.
    split; ring.
  - cbn [filter fst snd].
    destruct (actual =? predicted)%Z; [destruct (actual =? 1)%Z|];
      cbn [andb negb]; apply IH in E as [Ea Eb]; rewrite Ea, Eb;
      unfold len; cbn [List.length fadd of_int exact];
      rewrite ?Nat2Z.inj_succ, <- ?Z.add_1_r, ?inject_Z_plus;
      change (inject_Z 1) with 1; split; ring.
Qed.

(** In exact arithmetic the two rates are the quotients of the counts. *)
Lemma evaluate_exact (labels predictions : list Z) (a b : Q) :
  evaluate labels predictions = Ok (a, b) ->
  a == inject_Z (true_positives labels predictions) / inject_Z (count 1 labels) /\
  b == inject_Z (true_negatives labels predictions) / inject_Z (count 0 labels).
Proof.
  unfold evaluate.
  destruct (fold_left _ (combine labels predictions) (of_int 0, of_int 0))
    as [sensitivity specificity] eqn:Eloop.
  apply evaluate_loop_counts in Eloop as [Es Er].
  intros E. apply bind_Ok in E as (a0 & Ea & E). apply bind_Ok in E as (b0 & Eb & E).
  injection E as <- <-.
  apply truediv_exact in Ea as [_ ->]. apply truediv_exact in Eb as [_ ->].
  unfold true_positives, true_negatives.
  rewrite Es, Er. cbn [of_int exact]. change (inject_Z 0) with 0.
  now rewrite !Qplus_0_l.
Qed.

Lemma true_positives_bound (labels predictions : list Z) :
  (0 <= true_positives labels predictions <= count 1 labels)%Z.
Proof.
  unfold true_positives, count, len. split; [lia|]. apply inj_le.
  revert predictions. induction labels as [|a labels IH]; intros [|p predictions];
    simpl; try lia.
  specialize (IH predictions).
  destruct (Z.eqb_spec a p); destruct (Z.eqb_spec a 1);
    destruct (Z.eq_dec a 1); simpl; lia.
Qed.

Lemma true_negatives_bound (labels predictions : list Z) :
  Forall (fun a => a = 0 \/ a = 1)%Z labels ->
  (0 <= true_negatives labels predictions <= count 0 labels)%Z.
Proof.
  unfold true_negatives, count, len. intros Hl. split; [lia|]. apply inj_le.
  revert predictions. induction Hl as [|a labels Ha _ IH]; intros [|p predictions];
    cbn [combine filter fst snd count_occ List.length]; try lia.
  specialize (IH predictions).
  destruct (Z.eqb_spec a p); destruct (Z.eqb_spec a 1);
    destruct (Z.eq_dec a 0); cbn [andb negb List.length]; lia.
Qed.

Lemma quotient_in_unit (x n : Z) :
  (0 <= x <= n)%Z -> (n =? 0)%Z = false -> 0 <= inject_Z x / inject_Z n <= 1.
Proof.
  intros Hx Hn. apply Z.eqb_neq in Hn.
  assert (Hpos : 0 < inject_Z n) by (unfold Qlt; simpl; lia).
  split.
  - apply Qle_shift_div_l; [assumption|]. rewrite Qmult_0_l.
    unfold Qle; simpl. lia.
  - apply Qle_shift_div_r; [assumption|]. rewrite Qmult_1_l.
    unfold Qle; simpl. lia.
Qed.

(** X12: in exact arithmetic, on labels that are all [0] or [1], the
    sensitivity [evaluate] returns is the share of the [1] labels that were
    predicted, the specificity the share of the [0] labels that were
    predicted, and both lie between 0 and 1. *)
Theorem evaluate_rates (labels predictions : list Z) (sensitivity specificity : Q) :
  Forall (fun a => a = 0 \/ a = 1)%Z labels ->
  evaluate labels predictions = Ok (sensitivity, specificity) ->
  sensitivity ==
    inject_Z (true_positives labels predictions) / inject_Z (count 1 labels) /\
  specificity ==
    inject_Z (true_negatives labels predictions) / inject_Z (count 0 labels) /\
  0 <= sensitivity <= 1 /\ 0 <= specificity <= 1.
Proof.
  intros Hl E. destruct (evaluate_exact _ _ _ _ E) as [Es Er].
  split; [assumption|]. split; [assumption|].
  unfold evaluate in E.
  destruct (fold_left _ (combine labels predictions) (of_int 0, of_int 0))
    as [s0 r0].
  apply bind_Ok in E as (a0 & Ea & E). apply bind_Ok in E as (b0 & Eb & _).
  apply truediv_exact in Ea as [H1 _]. apply truediv_exact in Eb as [H0 _].
  rewrite Es, Er. split; apply quotient_in_unit; auto.
  - apply true_positives_bound.
  - now apply true_negatives_bound.
Qed.

Lemma perfect_counts (labels : list Z) :
  Forall (fun a => a = 0 \/ a = 1)%Z labels ->
  true_positives labels labels = count 1 labels /\
  true_negatives labels labels = count 0 labels.
Proof.
  unfold true_positives, true_negatives, count, len.
  induction 1 as [|a labels Ha _ [IH1 IH0]];
    cbn [combine filter fst snd count_occ List.length]; [auto|].
  rewrite Z.eqb_refl.
  destruct (Z.eqb_spec a 1); destruct (Z.eq_dec a 1); destruct (Z.eq_dec a 0);
    cbn [andb negb List.length]; rewrite ?Nat2Z.inj_succ; lia.
Qed.

(** X13: in exact arithmetic, predictions equal to the labels score a
    sensitivity and a specificity of exactly one, when the labels are all
    [0] or [1] and both occur. *)
Theorem evaluate_perfect_predictions (labels : list Z) :
  Forall (fun a => a = 0 \/ a = 1)%Z labels ->
  In 1%Z labels -> In 0%Z labels ->
  exists sensitivity specificity : Q,
    evaluate labels labels = Ok (sensitivity, specificity) /\
    sensitivity == 1 /\ specificity == 1.
Proof.
  intros Hl H1 H0.
  destruct (evaluate_returns (F := Q) labels labels H1 H0) as ([a b] & E).
  exists a, b. split; [assumption|].
  destruct (evaluate_exact _ _ _ _ E) as [Ea Eb].
  destruct (perfect_counts labels Hl) as [-> ->] in Ea, Eb.
  assert (N1 : ~ inject_Z (count 1 labels) == 0).
  { intros E1. unfold Qeq in E1; simpl in E1.
    apply (proj1 (count_zero_iff 1 labels)); [lia | assumption]. }
  assert (N0 : ~ inject_Z (count 0 labels) == 0).
  { intros E0. unfold Qeq in E0; simpl in E0.
    apply (proj1 (count_zero_iff 0 labels)); [lia | assumption]. }
  rewrite Ea, Eb. split; field; assumption.
Qed.

End EvaluateExact.

(** ** load_data *)

Section DictDelete.

Context {V : Type}.
Implicit Types (d : dict V) (k : page) (v : V).

Lemma delitem_absent d k : ~ In k (keys d) -> delitem d k = Raise KeyError.
Proof.
  induction d as [|[k0 v0] d IH]; simpl; [reflexivity|].
  destruct (String.eqb_spec k0 k); [tauto|].
  intros Hk. rewrite IH by tauto. reflexivity.
Qed.

Lemma delitem_length d k d' :
  delitem d k = Ok d' -> List.length d = S (List.length d').
Proof.
  revert d'; induction d as [|[k0 v0] d IH]; intros d'; simpl; [discriminate|].
  destruct (String.eqb k0 k).
  - intros E; injection E as <-. reflexivity.
  - intros E. apply bind_Ok in E as (d'' & E1 & E). injection E as <-.
    simpl. f_equal. now apply IH.
Qed.

Lemma delitem_incl d k d' : delitem d k = Ok d' -> incl d' d.
Proof.
  revert d'; induction d as [|[k0 v0] d IH]; intros d'; simpl; [discriminate|].
  destruct (String.eqb k0 k).
  - intros E; injection E as <-. apply incl_tl, incl_refl.
  - intros E. apply bind_Ok in E as (d'' & E1 & E). injection E as <-.
    intros x [<-|Hx]; [left; reflexivity | right; now apply (IH d'')].
Qed.

Lemma delitem_NoDup d k d' :
  delitem d k = Ok d' -> NoDup (keys d) -> NoDup (keys d').
Proof.
  revert d'; induction d as [|[k0 v0] d IH]; intros d'; simpl; [discriminate|].
  intros E Hnd. inversion Hnd as [|? ? Hk0 Hnd']; subst.
  destruct (String.eqb k0 k).
  - now injection E as <-.
  - apply bind_Ok in E as (d'' & E1 & E). injection E as <-.
    simpl. constructor; [|now apply IH].
    intros Hin. apply Hk0. unfold keys in *.
    apply in_map_iff in Hin as (e & <- & He).
    apply in_map. eapply delitem_incl; eassumption.
Qed.

Lemma delitem_getitem_other d k d' k' :
  delitem d k = Ok d' -> k' <> k -> getitem d' k' = getitem d k'.
Proof.
  revert d'; induction d as [|[k0 v0] d IH]; intros d'; simpl; [discriminate|].
  destruct (String.eqb_spec k0 k) as [->|Hne].
  - intros E Hk'; injection E as <-.
    destruct (String.eqb_spec k k'); congruence.
  - intros E Hk'. apply bind_Ok in E as (d'' & E1 & E). injection E as <-.
    simpl. destruct (String.eqb k0 k'); [reflexivity | now apply IH].
Qed.

Lemma length_setitem_present d k v :
  In k (keys d) -> List.length (setitem d k v) = List.length d.
Proof.
  intros Hk. pose proof (keys_setitem_present d k v Hk) as E.
  apply (f_equal (@List.length page)) in E.
  unfold keys in E. now rewrite !length_map in E.
Qed.

End DictDelete.

Section LoadData.

Context {F : Type} `{PyFloat F}.

Variable int_of_string : string -> result Z.
Variable float_of_string : string -> result F.
Variable int_of_float : F -> result Z.

Open Scope string_scope.
Open Scope list_scope.

Local Notation "'convert_'" :=
  (convert int_of_string float_of_string int_of_float) (only parsing).
Local Notation "'convert_cell_'" :=
  (convert_cell int_of_string float_of_string int_of_float) (only parsing).
Local Notation "'load_row_'" :=
  (load_row int_of_string float_of_string int_of_float) (only parsing).
Local Notation "'load_data_'" :=
  (load_data int_of_string float_of_string int_of_float) (only parsing).

(** The loop body reads one field and writes its conversion back. *)
Lemma convert_as_cell (row : dict cell) (data : string) :
  convert_ row data =
  c <- getitem row data ;;
  x <- convert_cell_ data c ;;
  Ok (setitem row data x).
Proof.
  unfold convert, convert_cell.
  destruct (String.eqb data "Month");
    [|destruct (String.eqb data "VisitorType");
      [|destruct (String.eqb data "Weekend");
        [|destruct (contains data floats)]]];
    destruct (getitem row data) as [c|e]; simpl; try reflexivity.
  - destruct (month_of c); reflexivity.
  - destruct (to_float float_of_string c); reflexivity.
  - destruct (to_int int_of_string int_of_float c); reflexivity.
Qed.

(** With distinct column names the loop converts every field once, in
    place. *)
Lemma convert_from (todo : dict cell) :
  forall front converted : dict cell,
    NoDup (keys (front ++ todo)) ->
    foldM convert_ (keys todo) (front ++ todo) = Ok converted ->
    exists todo',
      converted = front ++ todo' /\
      Forall2 (fun col col' =>
                 fst col' = fst col /\
                 convert_cell_ (fst col) (snd col) = Ok (snd col'))
              todo todo'.
Proof.
  induction todo as [|[k c] todo IH]; intros front converted Hnd E; simpl in E.
  - injection E as <-. exists []. split; [reflexivity | constructor].
  - assert (Hk : ~ In k (keys front)).
    { unfold keys in *. rewrite map_app in Hnd. simpl in Hnd.
      apply NoDup_remove_2 in Hnd. intros Hin. apply Hnd, in_or_app. auto. }
    apply bind_Ok in E as (row1 & E1 & E).
    rewrite convert_as_cell, getitem_middle in E1 by assumption.
    cbn [bind] in E1. apply bind_Ok in E1 as (x & Ex & E1).
    rewrite setitem_middle in E1 by assumption. injection E1 as <-.
    assert (Hkeys : keys ((front ++ [(k, x)]) ++ todo) =
                    keys (front ++ (k, c) :: todo)).
    { unfold keys. rewrite <- app_assoc, !map_app. reflexivity. }
    destruct (IH (front ++ [(k, x)]) converted) as (todo' & -> & Hall).
    + rewrite Hkeys. assumption.
    + rewrite <- app_assoc. exact E.
    + exists ((k, x) :: todo'). split; [now rewrite <- app_assoc|].
      constructor; [split; [reflexivity | exact Ex] | assumption].
Qed.

Lemma convert_all (row converted : dict cell) :
  NoDup (keys row) ->
  foldM convert_ (keys row) row = Ok converted ->
  Forall2 (fun col x => convert_cell_ (fst col) (snd col) = Ok x)
          row (values converted).
Proof.
  intros Hnd E. destruct (convert_from row [] converted Hnd E) as (row' & -> & Hall).
  simpl. clear E Hnd. induction Hall as [|col col' row row' [_ Hc] _ IH]; simpl.
  - constructor.
  - constructor; assumption.
Qed.

Lemma convert_length (l : list string) (row converted : dict cell) :
  foldM convert_ l row = Ok converted ->
  List.length converted = List.length row.
Proof.
  apply (foldM_invariant (fun r => List.length r = List.length row));
    [|reflexivity].
  intros r data r' _ Hr E. rewrite convert_as_cell in E.
  apply bind_Ok in E as (c & Ec & E). apply bind_Ok in E as (x & _ & E).
  injection E as <-. rewrite <- Hr. apply length_setitem_present.
  eapply getitem_In; eassumption.
Qed.

Lemma load_row_inv (row : dict cell) (e : list cell) (l : Z) :
  load_row_ row = Ok (e, l) ->
  exists revenue kept converted,
    getitem row "Revenue" = Ok revenue /\
    l = int_of_bool (cell_is revenue "TRUE") /\
    delitem row "Revenue" = Ok kept /\
    foldM convert_ (keys kept) kept = Ok converted /\
    e = values converted.
Proof.
  unfold load_row. intros E.
  apply bind_Ok in E as (revenue & Er & E). apply bind_Ok in E as (kept & Ek & E).
  apply bind_Ok in E as (converted & Ec & E). injection E as <- <-.
  exists revenue, kept, converted. auto 6.
Qed.

Lemma load_data_rows (rows : list (dict cell)) :
  forall evidence0 labels0 evidence labels,
    foldM (fun acc row =>
             let '(evidence, label) := acc in
             '(e, l) <- load_row_ row ;;
             Ok (evidence ++ [e], label ++ [l]))
          rows (evidence0, labels0) = Ok (evidence, labels) ->
    exists es ls,
      evidence = evidence0 ++ es /\ labels = labels0 ++ ls /\
      Forall2 (fun row el => load_row_ row = Ok el) rows (combine es ls) /\
      List.length es = List.length rows /\ List.length ls = List.length rows.
Proof.
  induction rows as [|row rows IH]; intros evidence0 labels0 evidence labels E;
    simpl in E.
  - injection E as <- <-. exists [], []. rewrite !app_nil_r.
    repeat split; constructor.
  - apply bind_Ok in E as ([ev1 lb1] & E1 & E).
    apply bind_Ok in E1 as ([e l] & Erow & E1). injection E1 as <- <-.
    apply IH in E as (es & ls & -> & -> & Hall & Hes & Hls).
    exists (e :: es), (l :: ls). rewrite <- !app_assoc. simpl.
    repeat split; try (f_equal; assumption).
    constructor; assumption.
Qed.

(** X14: when [load_data] returns, there is one evidence list and one
    label per row; the label is [1] when the row's [Revenue] field is the
    text [TRUE] and [0] otherwise; and each evidence list has one entry for
    every column but [Revenue]. *)
Theorem load_data_shape (rows : list (dict cell)) (evidence : list (list cell))
  (labels : list Z) :
  load_data_ rows = Ok (evidence, labels) ->
  Forall2 (fun row l =>
             exists revenue,
               getitem row "Revenue" = Ok revenue /\
               l = int_of_bool (cell_is revenue "TRUE"))
          rows labels /\
  Forall2 (fun row e => S (List.length e) = List.length row) rows evidence /\
  Forall (fun l => l = 0 \/ l = 1) labels.
Proof.
  unfold load_data. intros E.
  apply load_data_rows in E as (es & ls & -> & -> & Hall & Hes & Hls). simpl.
  revert ls Hall Hes Hls. revert es.
  induction rows as [|row rows IH]; intros [|e es] [|l ls] Hall Hes Hls;
    try discriminate; [repeat split; constructor|].
  simpl in Hall. inversion Hall as [|? ? ? ? Hrow Hall']; subst.
  injection Hes as Hes. injection Hls as Hls.
  destruct (IH es ls Hall' Hes Hls) as (Hl & He & H01).
  apply load_row_inv in Hrow
    as (revenue & kept & converted & Er & -> & Ek & Ec & ->).
  repeat split; constructor; try assumption.
  - eauto.
  - unfold values. rewrite length_map, (convert_length _ _ _ Ec).
    symmetry. eapply delitem_length; eassumption.
  - destruct (cell_is revenue "TRUE"); simpl; auto.
Qed.

Lemma Forall2_In_left {A B : Type} (R : A -> B -> Prop) (l : list A) (l' : list B)
  (x : A) :
  Forall2 R l l' -> In x l -> exists y, In y l' /\ R x y.
Proof.
  induction 1 as [|a b l l' Hab _ IH]; intros Hin; [contradiction|].
  destruct Hin as [<-|Hin].
  - exists b. split; [left; reflexivity | assumption].
  - destruct (IH Hin) as (y & Hy & Hxy). exists y. split; [right|]; assumption.
Qed.

(** X15: with distinct column names, the evidence of a row lists, in
    column order and without [Revenue], the conversion of each field:
    [Month] through the table [months], [VisitorType] and [Weekend] to [0]
    or [1], the columns of [floats] through [float], every other column
    through [int]. *)
Theorem load_row_columns (row : dict cell) (e : list cell) (l : Z) :
  NoDup (keys row) ->
  load_row_ row = Ok (e, l) ->
  exists kept,
    delitem row "Revenue" = Ok kept /\
    Forall2 (fun col x => convert_cell_ (fst col) (snd col) = Ok x) kept e.
Proof.
  intros Hnd E.
  apply load_row_inv in E as (revenue & kept & converted & _ & _ & Ek & Ec & ->).
  exists kept. split; [assumption|].
  apply convert_all; [|assumption]. eapply delitem_NoDup; eassumption.
Qed.

Lemma load_row_month_known (row : dict cell) (e : list cell) (l : Z) (m : string) :
  NoDup (keys row) ->
  load_row_ row = Ok (e, l) ->
  getitem row "Month" = Ok (Str m) ->
  exists k, getitem months m = Ok k /\ In (Int k) e.
Proof.
  intros Hnd E Em.
  apply load_row_inv in E as (revenue & kept & converted & _ & _ & Ek & Ec & ->).
  assert (Hkept : In ("Month", Str m) kept).
  { apply getitem_In_entry.
    rewrite (delitem_getitem_other _ _ _ "Month" Ek) by discriminate.
    assumption. }
  pose proof (convert_all kept converted (delitem_NoDup _ _ _ Ek Hnd) Ec) as Hall.
  destruct (Forall2_In_left _ _ _ _ Hall Hkept) as (x & Hx & Ex).
  unfold convert_cell in Ex. simpl in Ex.
  apply bind_Ok in Ex as (k & Ekm & Ex). injection Ex as <-. eauto.
Qed.

Lemma months_range (m : string) (k : Z) :
  getitem months m = Ok k -> 1 <= k <= 12.
Proof.
  unfold months. cbn [getitem].
  repeat match goal with
    | |- context [String.eqb ?a m] => destruct (String.eqb a m)
    end;
    intros E; try discriminate E; inversion E; lia.
Qed.

(** X16: when a row is loaded, its month name is one of the twelve keys
    of [months] and the evidence holds its number, which lies between 1 and
    12. *)
Theorem load_row_month (row : dict cell) (e : list cell) (l : Z) (m : string) :
  NoDup (keys row) ->
  load_row_ row = Ok (e, l) ->
  getitem row "Month" = Ok (Str m) ->
  exists k, getitem months m = Ok k /\ 1 <= k <= 12 /\ In (Int k) e.
Proof.
  intros Hnd E Em.
  destruct (load_row_month_known row e l m Hnd E Em) as (k & Ek & Hk).
  exists k. split; [assumption|]. split; [|assumption].
  eapply months_range; eassumption.
Qed.

(** X17: [load_data] raises, and returns nothing, as soon as one row has
    no [Revenue] field, or a month name that is not a key of [months]. *)
Theorem load_data_rejects_row (rows : list (dict cell)) (row : dict cell) :
  In row rows ->
  ~ In "Revenue" (keys row) \/
  (NoDup (keys row) /\
   exists m, getitem row "Month" = Ok (Str m) /\
             getitem months m = Raise KeyError) ->
  exists e, load_data_ rows = Raise e.
Proof.
  intros Hin Hbad.
  destruct (load_data_ rows) as [[evidence labels]|e] eqn:E; [exfalso | eauto].
  unfold load_data in E.
  apply load_data_rows in E as (es & ls & _ & _ & Hall & _ & _).
  destruct (Forall2_In_left _ _ _ _ Hall Hin) as ([e l] & _ & Erow).
  destruct Hbad as [Hrev|(Hnd & m & Em & Ekm)].
  - apply load_row_inv in Erow as (revenue & _ & _ & Er & _).
    apply Hrev. eapply getitem_In; eassumption.
  - destruct (load_row_month_known row e l m Hnd Erow Em) as (k & Ek & _).
    congruence.
Qed.

End LoadData.


(** * The further properties at the sample inputs *)

Section MoreRuns.

Open Scope string_scope.
Open Scope list_scope.

Lemma sample_row_NoDup (month : string) : NoDup (keys (sample_row month)).
Proof.
  repeat (constructor; [simpl; intuition discriminate|]). constructor.
Qed.

Lemma iterate_pagerank_no_inbound_links_hub :
  In "3.html" (keys hub) /\
  get_links "3.html" hub = Ok [] /\
  iterate_pagerank 2 hub half =
  Some (Ok [("1.html", 0.4375); ("2.html", 0.34375);
            ("3.html", 0.125); ("4.html", 0.125)]%float) /\
  getitem [("1.html", 0.4375); ("2.html", 0.34375);
           ("3.html", 0.125); ("4.html", 0.125)]%float "3.html" =
  Ok (fdiv (fsub 1%float half) 4%float).
Proof.
  assert (Hin : In "3.html" (keys hub)) by (simpl; tauto).
  assert (E : iterate_pagerank 2 hub half =
              Some (Ok [("1.html", 0.4375); ("2.html", 0.34375);
                        ("3.html", 0.125); ("4.html", 0.125)]%float))
    by (vm_compute; reflexivity).
  split; [assumption|]. split; [reflexivity|]. split; [assumption|].
  exact (iterate_pagerank_no_inbound_links hub half 2 "3.html" _ Hin eq_refl E).
Defined.

Lemma iterate_pagerank_rank_lower_bound_hub :
  (0 < 1 # 2)%Q /\ (1 # 2 < 1)%Q /\
  exists page_ranks v,
    iterate_pagerank 2 hub (1 # 2)%Q = Some (Ok page_ranks) /\
    getitem page_ranks "2.html" = Ok v /\
    ((1 - (1 # 2)) / inject_Z (len hub) <= v)%Q /\ (0 < v)%Q.
Proof.
  split; [reflexivity|]. split; [reflexivity|].
  destruct (iterate_pagerank 2 hub (1 # 2)%Q) as [[page_ranks|e]|] eqn:E;
    [|vm_compute in E; discriminate E ..].
  destruct (getitem page_ranks "2.html") as [v|e] eqn:Ev.
  - exists page_ranks, v. split; [reflexivity|]. split; [assumption|].
    exact (iterate_pagerank_rank_lower_bound hub (1 # 2)%Q 2 page_ranks
             "2.html" v eq_refl eq_refl E Ev).
  - exfalso. vm_compute in E. injection E as <-. vm_compute in Ev. discriminate Ev.
Defined.

Lemma sample_pagerank_tally_range_hub :
  well_typed hub /\ closed hub /\ 1 <= 4 /\
  exists page_ranks v,
    sample_pagerank hub (85 # 100)%Q 4 zeros = Ok page_ranks /\
    getitem page_ranks "1.html" = Ok v /\
    (0 <= v <= 1)%Q.
Proof.
  assert (Hn : 1 <= 4) by lia.
  split; [apply hub_well_typed|]. split; [apply hub_closed|].
  split; [assumption|].
  destruct (sample_pagerank hub (85 # 100)%Q 4 zeros) as [page_ranks|e] eqn:E;
    [|vm_compute in E; discriminate E].
  destruct (getitem page_ranks "1.html") as [v|e] eqn:Ev.
  - exists page_ranks, v. split; [reflexivity|]. split; [assumption|].
    exact (sample_pagerank_tally_range hub (85 # 100)%Q 4 zeros page_ranks
             "1.html" v hub_well_typed hub_closed Hn E Ev).
  - exfalso. vm_compute in E. injection E as <-. vm_compute in Ev. discriminate Ev.
Defined.

Lemma crawl_links_of_file_sample :
  NoDup (map fst sample_listing) /\
  In ("1.html", "one") sample_listing /\
  endswith "1.html" ".html" = true /\
  crawl sample_findall sample_listing =
  Ok [("1.html", ["2.html"]); ("2.html", ["1.html"])] /\
  exists links,
    getitem [("1.html", ["2.html"]); ("2.html", ["1.html"])] "1.html" = Ok links /\
    forall link,
      In link links <->
      In link (sample_findall "one") /\ link <> "1.html" /\
      In link (keys [("1.html", ["2.html"]); ("2.html", ["1.html"])]).
Proof.
  assert (Hnd : NoDup (map fst sample_listing)).
  { repeat (constructor; [simpl; intuition discriminate|]). constructor. }
  assert (Hin : In ("1.html", "one") sample_listing) by (simpl; tauto).
  assert (E : crawl sample_findall sample_listing =
              Ok [("1.html", ["2.html"]); ("2.html", ["1.html"])])
    by (vm_compute; reflexivity).
  split; [assumption|]. split; [assumption|]. split; [reflexivity|].
  split; [assumption|].
  exact (crawl_links_of_file sample_findall sample_listing "1.html" "one" _
           Hnd Hin eq_refl E).
Defined.

Lemma evaluate_rates_sample :
  Forall (fun a => a = 0 \/ a = 1) [1; 0; 1; 0] /\
  exists sensitivity specificity : Q,
    evaluate [1; 0; 1; 0] [1; 1; 0; 0] = Ok (sensitivity, specificity) /\
    (sensitivity == 1 # 2)%Q /\ (specificity == 1 # 2)%Q /\
    (0 <= sensitivity <= 1)%Q /\ (0 <= specificity <= 1)%Q.
Proof.
  assert (Hl : Forall (fun a => a = 0 \/ a = 1) [1; 0; 1; 0])
    by (repeat constructor; auto).
  split; [assumption|].
  destruct (@evaluate Q _ [1; 0; 1; 0] [1; 1; 0; 0]) as [[a b]|e] eqn:E;
    [|vm_compute in E; discriminate E].
  exists a, b. split; [reflexivity|].
  destruct (evaluate_rates [1; 0; 1; 0] [1; 1; 0; 0] a b Hl E)
    as (Ha & Hb & Ha01 & Hb01).
  repeat split; try apply Ha01; try apply Hb01.
  - rewrite Ha. reflexivity.
  - rewrite Hb. reflexivity.
Defined.

Lemma evaluate_perfect_predictions_sample :
  Forall (fun a => a = 0 \/ a = 1) [1; 0; 0] /\ In 1 [1; 0; 0] /\ In 0 [1; 0; 0] /\
  exists sensitivity specificity : Q,
    evaluate [1; 0; 0] [1; 0; 0] = Ok (sensitivity, specificity) /\
    (sensitivity == 1)%Q /\ (specificity == 1)%Q.
Proof.
  assert (Hl : Forall (fun a => a = 0 \/ a = 1) [1; 0; 0])
    by (repeat constructor; auto).
  assert (H1 : In 1 [1; 0; 0]) by (simpl; tauto).
  assert (H0 : In 0 [1; 0; 0]) by (simpl; tauto).
  split; [assumption|]. split; [assumption|]. split; [assumption|].
  exact (evaluate_perfect_predictions [1; 0; 0] Hl H1 H0).
Defined.

Lemma load_data_shape_sample :
  load_data sample_int sample_float sample_trunc
            [sample_row "June"; sample_row "Dec"] =
  Ok ([[Int 2; Flt 0.5%float; Int 6; Int 1; Int 0];
       [Int 2; Flt 0.5%float; Int 12; Int 1; Int 0]], [1; 1]) /\
  Forall2 (fun (row : dict cell) (e : list (@cell float)) =>
             S (List.length e) = List.length row)
          [sample_row "June"; sample_row "Dec"]
          [[Int 2; Flt 0.5%float; Int 6; Int 1; Int 0];
           [Int 2; Flt 0.5%float; Int 12; Int 1; Int 0]] /\
  Forall (fun l => l = 0 \/ l = 1) [1; 1].
Proof.
  assert (E : load_data sample_int sample_float sample_trunc
                        [sample_row "June"; sample_row "Dec"] =
              Ok ([[Int 2; Flt 0.5%float; Int 6; Int 1; Int 0];
                   [Int 2; Flt 0.5%float; Int 12; Int 1; Int 0]], [1; 1]))
    by (vm_compute; reflexivity).
  split; [assumption|].
  exact (proj2 (load_data_shape sample_int sample_float sample_trunc _ _ _ E)).
Defined.

Lemma load_row_columns_sample :
  NoDup (keys (sample_row "June")) /\
  load_row sample_int sample_float sample_trunc (sample_row "June") =
  Ok ([Int 2; Flt 0.5%float; Int 6; Int 1; Int 0], 1) /\
  exists kept,
    delitem (sample_row "June") "Revenue" = Ok kept /\
    Forall2 (fun col x =>
               convert_cell sample_int sample_float sample_trunc
                            (fst col) (snd col) = Ok x)
            kept [Int 2; Flt 0.5%float; Int 6; Int 1; Int 0].
Proof.
  assert (E : load_row sample_int sample_float sample_trunc (sample_row "June") =
              Ok ([Int 2; Flt 0.5%float; Int 6; Int 1; Int 0], 1))
    by (vm_compute; reflexivity).
  split; [apply sample_row_NoDup|]. split; [assumption|].
  exact (load_row_columns sample_int sample_float sample_trunc _ _ _
           (sample_row_NoDup "June") E).
Defined.

Lemma load_row_month_sample :
  NoDup (keys (sample_row "June")) /\
  load_row sample_int sample_float sample_trunc (sample_row "June") =
  Ok ([Int 2; Flt 0.5%float; Int 6; Int 1; Int 0], 1) /\
  getitem (sample_row "June") "Month" = Ok (Str "June") /\
  exists k,
    getitem months "June" = Ok k /\ 1 <= k <= 12 /\
    In (Int k) [Int 2; Flt 0.5%float; Int 6; Int 1; Int 0].
Proof.
  assert (E : load_row sample_int sample_float sample_trunc (sample_row "June") =
              Ok ([Int 2; Flt 0.5%float; Int 6; Int 1; Int 0], 1))
    by (vm_compute; reflexivity).
  split; [apply sample_row_NoDup|]. split; [assumption|].
  split; [reflexivity|].
  exact (load_row_month sample_int sample_float sample_trunc _ _ _ "June"
           (sample_row_NoDup "June") E eq_refl).
Defined.

Lemma load_data_rejects_row_sample :
  In (sample_row "Jun") [sample_row "June"; sample_row "Jun"] /\
  (NoDup (keys (sample_row "Jun")) /\
   exists m, getitem (sample_row "Jun") "Month" = Ok (Str m) /\
             getitem months m = Raise KeyError) /\
  exists e,
    load_data sample_int sample_float sample_trunc
              [sample_row "June"; sample_row "Jun"] = Raise e.
Proof.
  assert (Hin : In (sample_row "Jun") [sample_row "June"; sample_row "Jun"])
    by (simpl; tauto).
  assert (Hbad : NoDup (keys (sample_row "Jun")) /\
                 exists m, getitem (sample_row "Jun") "Month" = Ok (Str m) /\
                           getitem months m = Raise KeyError).
  { split; [apply sample_row_NoDup|]. exists "Jun". split; reflexivity. }
  split; [assumption|]. split; [assumption|].
  exact (load_data_rejects_row sample_int sample_float sample_trunc _ _ Hin
           (or_intror Hbad)).
Defined.

End MoreRuns.

(** * Rounding in binary64 *)

(** ** The corpus of sinks *)











Section RepeatedAddition.

Context {F : Type} `{PyFloat F}.



Lemma add256_iter (c x : F) :
  add256 c x = Nat.iter 256 (fun y => fadd y c) x.
Proof. reflexivity. Qed.




End RepeatedAddition.

Section Drift.

Open Scope string_scope.




End Drift.

(** * The distribution and the tallies, part by part *)

Section Parts.

Context {F : Type} `{PyFloat F}.


Lemma sample_loop_visits (corpus : corpus_t) (d step : F) (i : nat) :
  forall st st',
    sample_loop i corpus d step st = Ok st' ->
    exists visits,
      List.length visits = i /\
      incl visits (keys (fst (fst st))) /\
      forall p v,
        getitem (fst (fst st)) p = Ok v ->
        getitem (fst (fst st')) p =
        Ok (fold_left (fun acc q => if String.eqb q p then fadd acc step else acc)
                      visits v).
Proof.
  induction i as [|i IH]; intros st st' E; simpl in E.
  - injection E as <-. exists []. repeat split; [intros x []|auto].
  - apply bind_Ok in E as (st1 & E1 & E).
    destruct (IH _ _ E) as (visits & Hlen & Hincl & Htally).
    rewrite (sample_step_keys _ _ _ _ _ E1) in Hincl.
    destruct st as [[page_ranks current_page] g]. unfold sample_step in E1.
    apply bind_Ok in E1 as (old & Eold & E1).
    apply bind_Ok in E1 as (transition & _ & E1).
    apply bind_Ok in E1 as ([next_page g'] & _ & E1). injection E1 as <-.
    simpl in *. exists (current_page :: visits). repeat split.
    + simpl. now rewrite Hlen.
    + intros x [<-|Hx]; [eapply getitem_In; eassumption | now apply Hincl].
    + intros p v Ev. cbn [fold_left].
      destruct (String.eqb_spec current_page p) as [->|Hne].
      * apply Htally. rewrite getitem_setitem_same. congruence.
      * apply Htally. now rewrite getitem_setitem_other.
Qed.

Lemma sample_pagerank_visits (corpus : corpus_t) (d : F) (n : Z) (g : rng)
  (page_ranks : dict F) :
  sample_pagerank corpus d n g = Ok page_ranks ->
  exists visits,
    List.length visits = Z.to_nat n /\
    incl visits (keys corpus) /\
    forall p, In p (keys corpus) ->
              getitem page_ranks p =
              Ok (tally (fdiv (of_int 1) (of_int n)) visits p).
Proof.
  unfold sample_pagerank. intros E.
  apply bind_Ok in E as ([start g1] & _ & E).
  apply bind_Ok in E as (step & Es & E).
  apply bind_Ok in E as ([[ranks last_page] g2] & El & E). injection E as <-.
  unfold truediv in Es. destruct (n =? 0); [discriminate|]. injection Es as <-.
  destruct (sample_loop_visits _ _ _ _ _ _ El) as (visits & Hlen & Hincl & Ht).
  simpl in *. exists visits. repeat split; [assumption | |].
  - intros x Hx. apply Hincl in Hx.
    exact (proj1 (In_keys_comprehension _ _ _) Hx).
  - intros p Hp. apply Ht.
    exact (getitem_comprehension (fun _ => of_int 0) _ _ Hp).
Qed.

(** C6, as the code has it: [sample_pagerank] checks nothing itself.  On
    an empty corpus, whatever [n], [random.choice] raises [IndexError]; on
    any other corpus [1 / n] raises [ZeroDivisionError] for [n = 0]; both
    happen before the sampling loop and no mapping is returned.  For
    [n < 0] nothing is raised: the loop body never runs and the all-zero
    mapping is returned. *)
Theorem sample_pagerank_invalid_input (corpus : corpus_t) (d : F) (n : Z)
  (g : rng) :
  (corpus = [] -> sample_pagerank corpus d n g = Raise IndexError) /\
  (corpus <> [] -> n = 0 ->
   sample_pagerank corpus d n g = Raise ZeroDivisionError) /\
  (corpus <> [] -> n < 0 ->
   sample_pagerank corpus d n g =
   Ok (comprehension (fun _ => of_int 0) (keys corpus))).
Proof.
  split; [|split].
  - intros ->. reflexivity.
  - intros Hne ->. rewrite sample_pagerank_below_one by lia.
    destruct corpus; [contradiction | reflexivity].
  - intros Hne Hn. rewrite sample_pagerank_below_one by lia.
    destruct corpus; [contradiction|].
    destruct (Z.eqb_spec n 0); [lia | reflexivity].
Qed.

End Parts.


(** C7, as the code has it: whatever mapping [sample_pagerank] returns
    holds, for every page, the result of adding [1/n] to [0] once for each
    visit to that page, over [n] visits to pages of the corpus; this holds
    in either arithmetic.  In exact arithmetic, on a corpus that is a
    dictionary of sets whose links are all pages of the corpus, with a
    damping factor strictly between 0 and 1 and [n >= 1], the call returns
    and the tallies sum to exactly one. *)
Theorem sample_pagerank_tallies :
  (forall (F : Type) (H : PyFloat F) (corpus : corpus_t) (d : F) (n : Z)
          (g : rng) (page_ranks : dict F),
      sample_pagerank corpus d n g = Ok page_ranks ->
      exists visits,
        List.length visits = Z.to_nat n /\
        incl visits (keys corpus) /\
        forall p, In p (keys corpus) ->
                  getitem page_ranks p =
                  Ok (tally (fdiv (of_int 1) (of_int n)) visits p)) /\
  (forall (corpus : corpus_t) (d : Q) (n : Z) (g : rng),
      well_typed corpus -> closed corpus -> corpus <> [] ->
      (0 < d)%Q -> (d < 1)%Q -> 1 <= n ->
      exists page_ranks,
        sample_pagerank corpus d n g = Ok page_ranks /\
        (sum (values page_ranks) == 1)%Q).
Proof.
  split.
  - intros F H corpus d n g page_ranks. apply sample_pagerank_visits.
  - intros corpus d n g Hwt Hclosed Hne _ _ Hn.
    now apply sample_pagerank_sum_exact.
Qed.

(** ** At the sample inputs *)

Section RoundingRuns.

Open Scope string_scope.
Open Scope list_scope.

(** In binary64 nine increments of [1/9] on the one-page corpus leave a
    tally above one. *)
Lemma sample_pagerank_binary64_tally_above_one :
  sample_pagerank single DAMPING 9 zeros =
  Ok [("1.html", 0x1.0000000000001p+0%float)] /\
  PrimFloat.ltb 1%float 0x1.0000000000001p+0%float = true.
Proof. split; vm_compute; reflexivity. Qed.


Lemma sample_pagerank_invalid_input_runs :
  sample_pagerank (@nil (page * list page)) DAMPING 10000 zeros =
  Raise IndexError /\
  sample_pagerank single DAMPING 0 zeros = Raise ZeroDivisionError /\
  sample_pagerank single DAMPING (-1) zeros = Ok [("1.html", 0%float)].
Proof.
  assert (Hne : single <> []) by discriminate.
  split; [|split].
  - exact (proj1 (sample_pagerank_invalid_input [] DAMPING 10000 zeros) eq_refl).
  - exact (proj1 (proj2 (sample_pagerank_invalid_input single DAMPING 0 zeros))
             Hne eq_refl).
  - exact (proj2 (proj2 (sample_pagerank_invalid_input single DAMPING (-1) zeros))
             Hne eq_refl).
Defined.

Lemma sample_pagerank_tallies_runs :
  (exists visits,
      sample_pagerank single DAMPING 10 zeros =
      Ok [("1.html", 0x1.fffffffffffffp-1%float)] /\
      List.length visits = 10%nat /\
      incl visits ["1.html"] /\
      Ok 0x1.fffffffffffffp-1%float =
      Ok (tally (fdiv 1%float 10%float) visits "1.html")) /\
  (exists page_ranks,
      sample_pagerank hub (85 # 100)%Q 4 zeros = Ok page_ranks /\
      (sum (values page_ranks) == 1)%Q).
Proof.
  destruct sample_pagerank_tallies as [Htally Hexact].
  assert (E : sample_pagerank single DAMPING 10 zeros =
              Ok [("1.html", 0x1.fffffffffffffp-1%float)])
    by (vm_compute; reflexivity).
  assert (Hne : hub <> []) by discriminate.
  assert (Hn : 1 <= 4) by lia.
  split.
  - destruct (Htally float binary64 single DAMPING 10 zeros _ E)
      as (visits & Hlen & Hincl & Ht).
    exists visits. split; [assumption|]. split; [assumption|].
    split; [assumption|]. apply (Ht "1.html"). left. reflexivity.
  - exact (Hexact hub (85 # 100)%Q 4 zeros hub_well_typed hub_closed Hne
             eq_refl eq_refl Hn).
Defined.

End RoundingRuns.
